(** * EdgeGuard: hardware fingerprinting and drift monitor

  A shallow embedding of the EdgeGuard watchdog (package [main]): the
  hardware collector, the salted fingerprint, the file-backed identity
  store and the monitoring loop of [main], with the properties of the
  design document stated and proved (or refuted) over that embedding.

  Go strings and byte slices are byte sequences: they are [string]s here
  (one [ascii] per byte).  Go functions that return [(value, error)] return
  a pair whose second component is an [option error] ([None] is [nil]). *)

From Stdlib Require Import ZArith Lia List Ascii String Bool.
From stdpp Require Import base option list strings gmap fin_maps sorting pretty.

#[local] Set Warnings "-register-all".
#[local] Open Scope string_scope.
#[local] Open Scope Z_scope.

(** ** Bytes and byte strings *)

Module Bytes.

Definition of_ascii (c : ascii) : Z := Z.of_N (N_of_ascii c).
Definition to_ascii (b : Z) : ascii := ascii_of_N (Z.to_N (b mod 256)).

Definition of_string (s : string) : list Z := map of_ascii (list_ascii_of_string s).
Definition to_string (l : list Z) : string := string_of_list_ascii (map to_ascii l).

(** [n] bytes of [x], most significant first. *)
Fixpoint big_endian (n : nat) (x : Z) : list Z :=
  match n with
  | O => []
  | S n' => Z.land (Z.shiftr x (8 * Z.of_nat n')) 255 :: big_endian n' x
  end.

Fixpoint from_big_endian (acc : Z) (l : list Z) : Z :=
  match l with
  | [] => acc
  | b :: l' => from_big_endian (Z.lor (Z.shiftl acc 8) b) l'
  end.

(** Cut a list into consecutive groups of [n] elements ([fuel] bounds the
    number of groups). *)
Fixpoint chunks {A} (fuel n : nat) (l : list A) : list (list A) :=
  match fuel, l with
  | O, _ | _, [] => []
  | S fuel', _ => take n l :: chunks fuel' n (drop n l)
  end.

End Bytes.

(** ** crypto/sha256 (FIPS 180-4) *)

Module Sha256.

Definition mask32 (x : Z) : Z := Z.land x 4294967295.
Definition add32 (x y : Z) : Z := mask32 (x + y).
Definition rotr (n x : Z) : Z :=
  mask32 (Z.lor (Z.shiftr x n) (Z.shiftl x (32 - n))).
Definition shr (n x : Z) : Z := Z.shiftr x n.
Definition not32 (x : Z) : Z := Z.lxor x 4294967295.

Definition Ch (x y z : Z) : Z := Z.lxor (Z.land x y) (Z.land (not32 x) z).
Definition Maj (x y z : Z) : Z :=
  Z.lxor (Z.lxor (Z.land x y) (Z.land x z)) (Z.land y z).
Definition Sigma0 (x : Z) : Z := Z.lxor (Z.lxor (rotr 2 x) (rotr 13 x)) (rotr 22 x).
Definition Sigma1 (x : Z) : Z := Z.lxor (Z.lxor (rotr 6 x) (rotr 11 x)) (rotr 25 x).
Definition sigma0 (x : Z) : Z := Z.lxor (Z.lxor (rotr 7 x) (rotr 18 x)) (shr 3 x).
Definition sigma1 (x : Z) : Z := Z.lxor (Z.lxor (rotr 17 x) (rotr 19 x)) (shr 10 x).

(** The prime numbers below [bound], in increasing order. *)
Definition is_prime (n : Z) : bool :=
  (1 <? n) && forallb (λ d, negb (n mod d =? 0)) (seqZ 2 (Z.sqrt n - 1)).

Definition primes_below (bound : Z) : list Z := List.filter is_prime (seqZ 2 (bound - 2)).

(** The integer cube root of a number below 2 ^ (3 * bits), found bit by bit. *)
Fixpoint cube_root (bits : nat) (x r : Z) : Z :=
  match bits with
  | O => r
  | S bits' =>
      let r' := r + 2 ^ Z.of_nat bits' in
      cube_root bits' x (if r' * r' * r' <=? x then r' else r)
  end.

(** The round constants: the first 32 bits of the fractional parts of the
    cube roots of the first 64 primes. *)
Definition K : list Z :=
  map (λ p, mask32 (cube_root 36 (p * 2 ^ 96) 0)) (primes_below 312).

(** The eight working variables [a .. h]. *)
Record regs := Regs { ra : Z; rb : Z; rc : Z; rd : Z; re : Z; rf : Z; rg : Z; rh : Z }.

(** The first 32 bits of the fractional part of the square root of [p]. *)
Definition root_bits (p : Z) : Z := mask32 (Z.sqrt (p * 2 ^ 64)).

(** The initial hash value, from the first 8 primes. *)
Definition init : regs :=
  Regs (root_bits 2) (root_bits 3) (root_bits 5) (root_bits 7)
       (root_bits 11) (root_bits 13) (root_bits 17) (root_bits 19).

(** 0x80, zero bytes up to 56 modulo 64, then the bit length on 8 bytes. *)
Definition pad (msg : list Z) : list Z :=
  let len := Z.of_nat (length msg) in
  let zeros := Z.to_nat ((55 - len) mod 64) in
  msg ++ [128] ++ repeat 0 zeros ++ Bytes.big_endian 8 (8 * len).

(** Extend the 16 words of a block to the 64 words of the schedule. *)
Fixpoint schedule (n : nat) (w : list Z) : list Z :=
  match n with
  | O => w
  | S n' =>
      let t := length w in
      let at_ k := nth (t - k) w 0 in
      schedule n'
        (w ++ [add32 (add32 (sigma1 (at_ 2%nat)) (at_ 7%nat))
                     (add32 (sigma0 (at_ 15%nat)) (at_ 16%nat))])
  end.

Definition round (r : regs) (kw : Z * Z) : regs :=
  let t1 := add32 (add32 (add32 (rh r) (Sigma1 (re r)))
                         (add32 (Ch (re r) (rf r) (rg r)) (fst kw))) (snd kw) in
  let t2 := add32 (Sigma0 (ra r)) (Maj (ra r) (rb r) (rc r)) in
  Regs (add32 t1 t2) (ra r) (rb r) (rc r) (add32 (rd r) t1) (re r) (rf r) (rg r).

Definition block (h : regs) (blk : list Z) : regs :=
  let w := schedule 48 (map (Bytes.from_big_endian 0) (Bytes.chunks 16 4 blk)) in
  let r := fold_left round (combine K w) h in
  Regs (add32 (ra h) (ra r)) (add32 (rb h) (rb r)) (add32 (rc h) (rc r))
       (add32 (rd h) (rd r)) (add32 (re h) (re r)) (add32 (rf h) (rf r))
       (add32 (rg h) (rg r)) (add32 (rh h) (rh r)).

Definition digest_bytes (r : regs) : list Z :=
  concat (map (Bytes.big_endian 4)
              [ra r; rb r; rc r; rd r; re r; rf r; rg r; rh r]).

(** [sha256.Sum256]: the 32-byte digest of [data]. *)
Definition Sum256 (data : string) : list Z :=
  let p := pad (Bytes.of_string data) in
  digest_bytes (fold_left block (Bytes.chunks (length p) 64 p) init).

End Sha256.

(** ** fmt's %x verb on a byte array, encoding/base64 *)

Module Hex.

Definition digit (d : Z) : ascii :=
  Bytes.to_ascii (if d <? 10 then 48 + d else 87 + d).

(** [fmt.Sprintf("%x", b)] for a byte array: two lowercase digits per byte. *)
Fixpoint encode (l : list Z) : string :=
  match l with
  | [] => EmptyString
  | b :: l' => String (digit (Z.shiftr b 4)) (String (digit (Z.land b 15)) (encode l'))
  end.

Definition is_lower_hex (c : ascii) : bool :=
  let n := Bytes.of_ascii c in
  ((48 <=? n) && (n <=? 57)) || ((97 <=? n) && (n <=? 102)).

End Hex.

Module Base64.

(** The standard alphabet of RFC 4648. *)
Definition alphabet : string :=
  "ABCDEFGHIJKLMNOPQRSTUVWXYZabcdefghijklmnopqrstuvwxyz0123456789+/".

Definition char (i : Z) : ascii :=
  match String.get (Z.to_nat i) alphabet with
  | Some c => c
  | None => "="%char
  end.

Definition sextet (x : Z) (k : Z) : ascii := char (Z.land (Z.shiftr x (6 * k)) 63).

(** [base64.StdEncoding.EncodeToString]: padded with [=]. *)
Fixpoint encode (l : list Z) : string :=
  match l with
  | [] => EmptyString
  | [a] =>
      let x := Z.shiftl a 16 in
      String (sextet x 3) (String (sextet x 2) "==")
  | [a; b] =>
      let x := Z.lor (Z.shiftl a 16) (Z.shiftl b 8) in
      String (sextet x 3) (String (sextet x 2) (String (sextet x 1) "="))
  | a :: b :: c :: l' =>
      let x := Z.lor (Z.lor (Z.shiftl a 16) (Z.shiftl b 8)) c in
      String (sextet x 3) (String (sextet x 2)
        (String (sextet x 1) (String (sextet x 0) (encode l'))))
  end.

End Base64.

(** ** Go values: errors, decoded JSON, HTTP messages *)

Inductive Errno := ENOENT | EACCES | EIO | ENOSPC | EROFS | EMFILE.

Definition strerror (e : Errno) : string :=
  match e with
  | ENOENT => "no such file or directory"
  | EACCES => "permission denied"
  | EIO => "input/output error"
  | ENOSPC => "no space left on device"
  | EROFS => "read-only file system"
  | EMFILE => "too many open files"
  end.

(** Go [error] values: an [*fs.PathError] of the os package, a plain message,
    or the value built by [fmt.Errorf] with a [%w] verb, which keeps the
    formatted message and the wrapped cause. *)
Inductive error :=
| PathError (op path : string) (errno : Errno)
| errorString (s : string)
| wrapError (msg : string) (err : error).

(** The [Error()] method. *)
Definition Error (e : error) : string :=
  match e with
  | PathError op path errno => op +:+ " " +:+ path +:+ ": " +:+ strerror errno
  | errorString s => s
  | wrapError msg _ => msg
  end.

(** [err != nil]. *)
Definition notNil (err : option error) : bool :=
  match err with
  | Some _ => true
  | None => false
  end.

(** [fmt.Errorf(prefix + "%w", err)]. *)
Definition Errorf_w (prefix : string) (err : error) : error :=
  wrapError (prefix +:+ Error err) err.


(** A finite IEEE 754 binary64 value, kept as its 64-bit pattern: the only
    numbers [json.Unmarshal] produces. *)
Definition float64 : Type := Z.

(** What [json.Unmarshal] stores in an [interface{}]: [nil], [bool],
    [float64], [string], [[]interface{}] or [map[string]interface{}]. *)
Inductive json :=
| JNull
| JBool (b : bool)
| JNumber (f : float64)
| JString (s : string)
| JArray (l : list json)
| JObject (m : gmap string json).

Record Request := {
  Method : string;
  URL : string;
  Header : gmap string string
}.

(** An HTTP response: the status code and what reading the body to its end
    gives (its bytes, or a read error). *)
Record Response := {
  StatusCode : Z;
  Body : string + error
}.

(** ** The outside world

    The process acts on a file system and leaves a trace of its observable
    actions.  What the outside answers during one phase of the run (start-up,
    or one iteration of the loop) is an [Env]: environment variables, the
    answer of the network to each request, injected file-system faults and
    the system's random source. *)

Inductive event :=
| EvLog (line : string)
| EvHttp (req : Request)
| EvReadFile (path : string)
| EvWriteFile (path data : string) (perm : Z)
| EvRandRead (n : nat)
| EvSleep (nanoseconds : Z).

Record World := {
  fs : gmap string string;
  trace : list event
}.

Record Env := {
  environ : gmap string string;
  round_trip : Request → Response + error;
  read_fault : string → option error;
  write_fault : string → option error;
  partial_write : string → option nat;
  entropy : list Z;
  rand_fault : option error
}.

Definition emit (e : event) (w : World) : World :=
  {| fs := fs w; trace := trace w ++ [e] |}.

(** Computations that read the [Env] and update the [World]. *)
Definition M (A : Type) : Type := Env → World → A * World.

#[global] Instance M_ret : MRet M := λ A a _ w, (a, w).
#[global] Instance M_bind : MBind M :=
  λ A B f m env w, let '(a, w') := m env w in f a env w'.

(** *** Library calls with an effect *)

Definition log_Println (line : string) : M unit :=
  λ _ w, (tt, emit (EvLog line) w).

Definition os_LookupEnv (key : string) : M (option string) :=
  λ env w, (environ env !! key, w).

(** [http.DefaultClient.Do] and [(&http.Client{}).Do], with the body read. *)
Definition client_Do (req : Request) : M (Response + error) :=
  λ env w, (round_trip env req, emit (EvHttp req) w).

Definition http_Get (url : string) : M (Response + error) :=
  client_Do {| Method := "GET"; URL := url; Header := ∅ |}.

(** [ioutil.ReadFile]: a missing file is the [ENOENT] path error. *)
Definition ioutil_ReadFile (path : string) : M (string + error) :=
  λ env w,
    (match read_fault env path with
     | Some e => inr e
     | None =>
         match fs w !! path with
         | Some content => inl content
         | None => inr (PathError "open" path ENOENT)
         end
     end, emit (EvReadFile path) w).

(** What a write of [data] that fails leaves in the file at [path].
    [os.WriteFile] opens the file with O_WRONLY|O_CREATE|O_TRUNC, writes and
    closes.  When the failure comes at the opening ([partial_write] gives
    nothing) the file stays as it was, missing or not; when it comes later the
    file exists and holds the first [n] bytes of the data: none of them, some,
    or all of them when only the closing fails. *)
Definition failed_write (env : Env) (path data : string) (files : gmap string string)
  : gmap string string :=
  match partial_write env path with
  | None => files
  | Some n => <[path := String.substring 0 n data]> files
  end.

(** [ioutil.WriteFile]: creates or replaces the whole file; a write that
    fails leaves what [failed_write] says. *)
Definition ioutil_WriteFile (path data : string) (perm : Z) : M (option error) :=
  λ env w,
    let w' := emit (EvWriteFile path data perm) w in
    match write_fault env path with
    | Some e => (Some e, {| fs := failed_write env path data (fs w'); trace := trace w' |})
    | None => (None, {| fs := <[path := data]> (fs w'); trace := trace w' |})
    end.

(** [rand.Read] on a buffer of [n] bytes. *)
Definition rand_Read (n : nat) : M (list Z + error) :=
  λ env w,
    (match rand_fault env with
     | Some e => inr e
     | None => inl (take n (map (λ b, b mod 256) (entropy env) ++ repeat 0 n))
     end, emit (EvRandRead n) w).

Definition time_Sleep (d : Z) : M unit :=
  λ _ w, (tt, emit (EvSleep d) w).

(** *** Pure library functions *)

(** [bytes.TrimSpace]: white space as defined by Unicode, on UTF-8.  The
    white-space runes are the six ASCII ones, U+0085, U+00A0, U+1680,
    U+2000..U+200A, U+2028, U+2029, U+202F, U+205F and U+3000. *)
Definition ascii_space (b : Z) : bool :=
  ((9 <=? b) && (b <=? 13)) || (b =? 32).

(** The white-space rune at the head of a byte list, if any: what is left. *)
Definition strip_space_front (l : list Z) : option (list Z) :=
  match l with
  | 0xC2 :: 0x85 :: r | 0xC2 :: 0xA0 :: r
  | 0xE1 :: 0x9A :: 0x80 :: r
  | 0xE2 :: 0x80 :: 0xA8 :: r | 0xE2 :: 0x80 :: 0xA9 :: r
  | 0xE2 :: 0x80 :: 0xAF :: r | 0xE2 :: 0x81 :: 0x9F :: r
  | 0xE3 :: 0x80 :: 0x80 :: r => Some r
  | 0xE2 :: 0x80 :: b :: r => if (0x80 <=? b) && (b <=? 0x8A) then Some r else None
  | b :: r => if ascii_space b then Some r else None
  | [] => None
  end.

(** The same at the end of a byte list, given in reverse. *)
Definition strip_space_back (l : list Z) : option (list Z) :=
  match l with
  | 0x85 :: 0xC2 :: r | 0xA0 :: 0xC2 :: r
  | 0x80 :: 0x9A :: 0xE1 :: r
  | 0xA8 :: 0x80 :: 0xE2 :: r | 0xA9 :: 0x80 :: 0xE2 :: r
  | 0xAF :: 0x80 :: 0xE2 :: r | 0x9F :: 0x81 :: 0xE2 :: r
  | 0x80 :: 0x80 :: 0xE3 :: r => Some r
  | b :: 0x80 :: 0xE2 :: r =>
      if (0x80 <=? b) && (b <=? 0x8A) then Some r
      else if ascii_space b then Some (0x80 :: 0xE2 :: r) else None
  | b :: r => if ascii_space b then Some r else None
  | [] => None
  end.

Fixpoint strip_all (strip : list Z → option (list Z)) (fuel : nat) (l : list Z) : list Z :=
  match fuel with
  | O => l
  | S fuel' =>
      match strip l with
      | Some r => strip_all strip fuel' r
      | None => l
      end
  end.

Definition bytes_TrimSpace (s : string) : string :=
  let l := Bytes.of_string s in
  let l1 := strip_all strip_space_front (length l) l in
  let l2 := strip_all strip_space_back (length l1) (rev l1) in
  Bytes.to_string (rev l2).

(** [strconv.Itoa] and the [%d] verb. *)
Definition strconv_Itoa (n : Z) : string := pretty n.

Definition min_int : Z := - 2 ^ 63.
Definition max_int : Z := 2 ^ 63 - 1.

(** The two's-complement wrap-around of 64-bit [int] arithmetic. *)
Definition wrap_int (x : Z) : Z := (x + 2 ^ 63) mod 2 ^ 64 - 2 ^ 63.

Fixpoint parse_digits (acc : Z) (l : list Z) : option Z :=
  match l with
  | [] => Some acc
  | b :: r => if (48 <=? b) && (b <=? 57) then parse_digits (10 * acc + (b - 48)) r else None
  end.

(** [strconv.Atoi]: an optional sign and decimal digits; a value out of the
    range of [int] is clipped and reported as a range error.  The program
    only tests the error against [nil]. *)
Definition strconv_Atoi (s : string) : Z * option error :=
  let syntax := (0, Some (errorString ("strconv.Atoi: parsing " +:+ s +:+ ": invalid syntax"))) in
  let range v := (v, Some (errorString ("strconv.Atoi: parsing " +:+ s +:+ ": value out of range"))) in
  let '(neg, digits) :=
    match Bytes.of_string s with
    | 45 :: r => (true, r)
    | 43 :: r => (false, r)
    | l => (false, l)
    end in
  match digits with
  | [] => syntax
  | _ =>
      match parse_digits 0 digits with
      | None => syntax
      | Some n =>
          let v := if neg then - n else n in
          if v <? min_int then range min_int
          else if max_int <? v then range max_int
          else (v, None)
      end
  end.

(** ** The program *)

(** encoding/json is used as a library: the decoding of a body into an
    [interface{}], and the encoders of the two leaf types whose text depends
    on number formatting and string escaping. *)
Class JsonCodec := {
  json_Unmarshal : string → json + error;
  encodeFloat : float64 → string;
  encodeString : string → string
}.

Section EdgeGuard.

Context {codec : JsonCodec}.

Definition defaultHALURL : string := "iofog".
Definition defaultPort : string := "54331".
Definition deprovisionURL : string := "http://iofog:54321/v2/deprovision".
Definition defaultPeriod : Z := 60.
Definition saltFile : string := "id/salt-key".
Definition hwidFile : string := "id/hw-id".

(** A Go map field is [nil] ([None]) until it is assigned. *)
Record HardwareData := {
  Lscpu : option (gmap string json);
  Lspci : option (gmap string json);
  Lsusb : option (gmap string json);
  Lshw : option (gmap string json);
  CpuInfo : option (gmap string json)
}.

(** *** json.Marshal on [*HardwareData] *)

Definition key_le (a b : string * string) : Prop := String.leb a.1 b.1.

Definition join (sep : string) (l : list string) : string := String.concat sep l.

(** A map is written with its keys sorted as byte strings. *)
Definition encodeMembers (m : gmap string string) : string :=
  "{" +:+ join "," (map (λ kv, encodeString kv.1 +:+ ":" +:+ kv.2)
                        (merge_sort key_le (map_to_list m))) +:+ "}".

Fixpoint encodeValue (v : json) : string :=
  match v with
  | JNull => "null"
  | JBool b => if b then "true" else "false"
  | JNumber f => encodeFloat f
  | JString s => encodeString s
  | JArray l => "[" +:+ join "," (map encodeValue l) +:+ "]"
  | JObject m => encodeMembers (encodeValue <$> m)
  end.

Definition encodeMap (m : option (gmap string json)) : string :=
  match m with
  | None => "null"
  | Some m => encodeValue (JObject m)
  end.

Definition dquote : string := String "034"%char EmptyString.

Definition encodeField (name : string) (m : option (gmap string json)) : string :=
  dquote +:+ name +:+ dquote +:+ ":" +:+ encodeMap m.

(** The fields are written in the order of the struct declaration, under the
    names of their [json] tags.  Values decoded by [json.Unmarshal] always
    encode, so the error of [json.Marshal] is [nil]. *)
Definition encodeStruct (data : HardwareData) : string :=
  "{" +:+ join "," [ encodeField "lscpu" (Lscpu data);
                     encodeField "lspci" (Lspci data);
                     encodeField "lsusb" (Lsusb data);
                     encodeField "lshw" (Lshw data);
                     encodeField "cpuinfo" (CpuInfo data) ] +:+ "}".

(** The argument is a pointer: [nil] is written [null]. *)
Definition json_Marshal (data : option HardwareData) : string * option error :=
  match data with
  | None => ("null", None)
  | Some d => (encodeStruct d, None)
  end.

(** *** Configuration *)

Definition getEnv (key fallback : string) : M string :=
  v ← os_LookupEnv key;
  match v with
  | Some value => mret value
  | None => mret fallback
  end.

(** *** Hardware collector *)

Definition fetchEndpoint (url : string) : M (json * option error) :=
  r ← http_Get url;
  match r with
  | inr err => mret (JNull, Some (Errorf_w ("failed to fetch " +:+ url +:+ ": ") err))
  | inl resp =>
      match Body resp with
      | inr err =>
          mret (JNull, Some (Errorf_w ("failed to read response from " +:+ url +:+ ": ") err))
      | inl body =>
          match json_Unmarshal body with
          | inr err =>
              mret (JNull, Some (Errorf_w ("failed to parse JSON from " +:+ url +:+ ": ") err))
          | inl data => mret (data, None)
          end
      end
  end.

Definition parseToMap (data : json) : gmap string json :=
  match data with
  | JObject resultMap => resultMap
  | _ => {[ "data" := data ]}
  end.

Definition endpoints : list string := ["lscpu"; "lspci"; "lsusb"; "lshw"; "proc/cpuinfo"].

Definition endpointURL (baseURL endpoint : string) : string :=
  "http://" +:+ baseURL +:+ ":" +:+ defaultPort +:+ "/hal/hwc/" +:+ endpoint.

(** The [switch] of the loop body. *)
Definition assign (endpoint : string) (m : gmap string json) (data : HardwareData) : HardwareData :=
  if String.eqb endpoint "lscpu" then
    {| Lscpu := Some m; Lspci := Lspci data; Lsusb := Lsusb data; Lshw := Lshw data;
       CpuInfo := CpuInfo data |}
  else if String.eqb endpoint "lspci" then
    {| Lscpu := Lscpu data; Lspci := Some m; Lsusb := Lsusb data; Lshw := Lshw data;
       CpuInfo := CpuInfo data |}
  else if String.eqb endpoint "lsusb" then
    {| Lscpu := Lscpu data; Lspci := Lspci data; Lsusb := Some m; Lshw := Lshw data;
       CpuInfo := CpuInfo data |}
  else if String.eqb endpoint "lshw" then
    {| Lscpu := Lscpu data; Lspci := Lspci data; Lsusb := Lsusb data; Lshw := Some m;
       CpuInfo := CpuInfo data |}
  else if String.eqb endpoint "proc/cpuinfo" then
    {| Lscpu := Lscpu data; Lspci := Lspci data; Lsusb := Lsusb data; Lshw := Lshw data;
       CpuInfo := Some m |}
  else data.

(** The [for ... range endpoints] loop, on the endpoints still to visit. *)
Fixpoint collectFrom (baseURL : string) (rest : list string) (data : HardwareData)
  : M (option HardwareData * option error) :=
  match rest with
  | [] => mret (Some data, None)
  | endpoint :: rest' =>
      '(result, err) ← fetchEndpoint (endpointURL baseURL endpoint);
      match err with
      | Some e => mret (None, Some e)
      | None => collectFrom baseURL rest' (assign endpoint (parseToMap result) data)
      end
  end.

Definition collectHardwareData (baseURL : string) : M (option HardwareData * option error) :=
  collectFrom baseURL endpoints
    {| Lscpu := None; Lspci := None; Lsusb := None; Lshw := None; CpuInfo := None |}.

(** *** Identity store and fingerprint *)

Definition generateSalt : M (string * option error) :=
  r ← rand_Read 16;
  match r with
  | inr err => mret (EmptyString, Some (Errorf_w "failed to generate salt: " err))
  | inl salt => mret (Base64.encode salt, None)
  end.

(** Octal 0600: read and write for the owner only. *)
Definition perm_0600 : Z := 6 * 64.

Definition saveToFile (filename data : string) : M (option error) :=
  ioutil_WriteFile filename data perm_0600.

Definition loadFromFile (filename : string) : M (string * option error) :=
  r ← ioutil_ReadFile filename;
  match r with
  | inr err => mret (EmptyString, Some err)
  | inl data => mret (bytes_TrimSpace data, None)
  end.

(** [fmt.Sprintf("%x", sha256.Sum256(salt ++ jsonData))]. *)
Definition saltedHash (salt jsonData : string) : string :=
  Hex.encode (Sha256.Sum256 (salt +:+ jsonData)).

Definition calculateSaltedHash (data : option HardwareData) : M (string * option error) :=
  let '(jsonData, err) := json_Marshal data in
  match err with
  | Some e => mret (EmptyString, Some (Errorf_w "failed to serialize hardware data: " e))
  | None =>
      '(salt, err) ← loadFromFile saltFile;
      match err with
      | None => mret (saltedHash salt jsonData, None)
      | Some _ =>
          log_Println "Salt not found, generating new one.";;
          '(salt, err) ← generateSalt;
          match err with
          | Some e => mret (EmptyString, Some (Errorf_w "failed to generate salt: " e))
          | None =>
              err ← saveToFile saltFile salt;
              match err with
              | Some e => mret (EmptyString, Some (Errorf_w "failed to save salt to file: " e))
              | None => mret (saltedHash salt jsonData, None)
              end
          end
      end
  end.

(** *** Deprovision client *)

Definition loadAuthToken : M (string * option error) :=
  r ← ioutil_ReadFile "local-api";
  match r with
  | inr err => mret (EmptyString, Some (Errorf_w "failed to read local-api file: " err))
  | inl token => mret (bytes_TrimSpace token, None)
  end.

(** [http.NewRequest] with no body: the method of this program is a valid
    token and its URL parses, so the error is [nil]. *)
Definition http_NewRequest (method url : string) : Request + error :=
  inl {| Method := method; URL := url; Header := ∅ |}.

Definition Header_Set (key value : string) (req : Request) : Request :=
  {| Method := Method req; URL := URL req; Header := <[key := value]> (Header req) |}.

Definition StatusOK : Z := 200.

Definition deprovisionDevice (authToken : string) : M (option error) :=
  match http_NewRequest "DELETE" deprovisionURL with
  | inr err => mret (Some (Errorf_w "failed to create DELETE request: " err))
  | inl req =>
      let req := Header_Set "Authorization" authToken req in
      r ← client_Do req;
      match r with
      | inr err => mret (Some (Errorf_w "failed to send DELETE request: " err))
      | inl resp =>
          if negb (StatusCode resp =? StatusOK) then
            mret (Some (errorString ("unexpected response status: "
                                     +:+ strconv_Itoa (StatusCode resp))))
          else mret None
      end
  end.

(** *** Drift monitor *)

(** How one pass through the body of the [for] loop ends: at a [continue]
    statement, at the [break], or at the end of the body. *)
Inductive control := Continue | Break | EndOfBody.

Definition Second : Z := 1000000000.

(** The body of the loop of [main]: the way it ends and the new value of
    the variable [initialHdID]. *)
Definition iteration (halURL : string) (period : Z) (initialHdID : string)
  : M (control * string) :=
  '(hardwareData, err) ← collectHardwareData halURL;
  match err with
  | Some e =>
      log_Println ("Error collecting hardware data: " +:+ Error e);;
      mret (Continue, initialHdID)
  | None =>
      '(hwID, err) ← calculateSaltedHash hardwareData;
      match err with
      | Some e =>
          log_Println ("Error calculating hardware hash: " +:+ Error e);;
          mret (Continue, initialHdID)
      | None =>
          log_Println ("Calculated hardware hash: " +:+ hwID);;
          if String.eqb initialHdID EmptyString then
            err ← saveToFile hwidFile hwID;
            match err with
            | Some e => log_Println ("Error saving HWID to file: " +:+ Error e)
            | None => mret tt
            end;;
            log_Println "Initial hardware ID set.";;
            mret (Continue, hwID)
          else if negb (String.eqb hwID initialHdID) then
            '(authToken, err) ← loadAuthToken;
            match err with
            | Some e =>
                log_Println ("Error loading auth token: " +:+ Error e);;
                mret (Continue, initialHdID)
            | None =>
                err ← deprovisionDevice authToken;
                match err with
                | Some e =>
                    log_Println ("Error deprovisioning device: " +:+ Error e);;
                    mret (Continue, initialHdID)
                | None =>
                    log_Println "Device deprovisioned due to hardware changes.";;
                    mret (Break, initialHdID)
                end
            end
          else
            log_Println "Hardware configuration unchanged.";;
            time_Sleep (wrap_int (period * Second));;
            mret (EndOfBody, initialHdID)
      end
  end.

(** What [main] does before the loop: the configuration and the first read
    of the baseline record. *)
Definition startup : M (string * Z * string) :=
  halURL ← getEnv "HAL_URL" defaultHALURL;
  periodEnv ← getEnv "PERIOD" (strconv_Itoa defaultPeriod);
  let '(period, err) := strconv_Atoi periodEnv in
  period ← (if notNil err || (period <=? 0) then
              log_Println ("Invalid PERIOD value, using default: "
                           +:+ strconv_Itoa defaultPeriod +:+ " seconds");;
              mret defaultPeriod
            else mret period);
  '(initialHdID, err) ← loadFromFile hwidFile;
  match err with
  | Some _ => log_Println "HWID not found, will calculate on first run."
  | None => mret tt
  end;;
  mret (halURL, period, initialHdID).

(** Where a run stands: [main] has returned, or it is at the head of the
    loop with this value of [initialHdID]. *)
Inductive status := Exited | Running (initialHdID : string).

(** At most [fuel] passes through the loop; pass [i] meets [ticks i]. *)
Fixpoint loop (fuel : nat) (ticks : nat → Env) (i : nat)
  (halURL : string) (period : Z) (initialHdID : string) (w : World) : status * World :=
  match fuel with
  | O => (Running initialHdID, w)
  | S fuel' =>
      let '((c, initialHdID'), w') := iteration halURL period initialHdID (ticks i) w in
      match c with
      | Break => (Exited, w')
      | Continue | EndOfBody => loop fuel' ticks (S i) halURL period initialHdID' w'
      end
  end.

Definition main (fuel : nat) (boot : Env) (ticks : nat → Env) (w : World) : status * World :=
  let '((halURL, period, initialHdID), w') := startup boot w in
  loop fuel ticks 0 halURL period initialHdID w'.

End EdgeGuard.

(** ** The in-memory variant (wasm-binary/main.go)

    The WebAssembly build keeps the salt in a package-level variable and has
    no identity store; its collector, token and revocation code are those
    above.  The functions take the value of the variable [salt] and return
    its new value. *)

Module InMemory.

Section Variant.

Context {codec : JsonCodec}.

Definition calculateSaltedHash (data : option HardwareData) (salt : string)
  : M (string * option error * string) :=
  let '(jsonData, err) := json_Marshal data in
  match err with
  | Some e => mret (EmptyString, Some (Errorf_w "failed to serialize hardware data: " e), salt)
  | None =>
      if String.eqb salt EmptyString then
        '(salt', err) ← generateSalt;
        match err with
        | Some e => mret (EmptyString, Some (Errorf_w "failed to generate salt: " e), salt')
        | None => mret (saltedHash salt' jsonData, None, salt')
        end
      else mret (saltedHash salt jsonData, None, salt)
  end.


(** The body of the loop of the in-memory [main]: the way it ends and the
    new values of the variables [initialHdID] and [salt]. *)
Definition iteration (halURL : string) (period : Z) (initialHdID salt : string)
  : M (control * string * string) :=
  '(hardwareData, err) ← collectHardwareData halURL;
  match err with
  | Some e =>
      log_Println ("Error collecting hardware data: " +:+ Error e);;
      mret (Continue, initialHdID, salt)
  | None =>
      '(hwID, err, salt) ← calculateSaltedHash hardwareData salt;
      match err with
      | Some e =>
          log_Println ("Error calculating hardware hash: " +:+ Error e);;
          mret (Continue, initialHdID, salt)
      | None =>
          log_Println ("Calculated hardware hash: " +:+ hwID);;
          if String.eqb initialHdID EmptyString then
            log_Println "Initial hardware ID set.";;
            mret (Continue, hwID, salt)
          else if negb (String.eqb hwID initialHdID) then
            '(authToken, err) ← loadAuthToken;
            match err with
            | Some e =>
                log_Println ("Error loading auth token: " +:+ Error e);;
                mret (Continue, initialHdID, salt)
            | None =>
                err ← deprovisionDevice authToken;
                match err with
                | Some e =>
                    log_Println ("Error deprovisioning device: " +:+ Error e);;
                    mret (Continue, initialHdID, salt)
                | None =>
                    log_Println "Device deprovisioned due to hardware changes.";;
                    mret (Break, initialHdID, salt)
                end
            end
          else
            log_Println "Hardware configuration unchanged.";;
            time_Sleep (wrap_int (period * Second));;
            mret (EndOfBody, initialHdID, salt)
      end
  end.

(** What the in-memory [main] does before the loop: the configuration. *)
Definition startup : M (string * Z) :=
  halURL ← getEnv "HAL_URL" defaultHALURL;
  periodEnv ← getEnv "PERIOD" (strconv_Itoa defaultPeriod);
  let '(period, err) := strconv_Atoi periodEnv in
  period ← (if notNil err || (period <=? 0) then
              log_Println ("Invalid PERIOD value, using default: "
                           +:+ strconv_Itoa defaultPeriod +:+ " seconds");;
              mret defaultPeriod
            else mret period);
  mret (halURL, period).

(** At most [fuel] passes; the result carries the two variables. *)
Fixpoint loop (fuel : nat) (ticks : nat → Env) (i : nat)
  (halURL : string) (period : Z) (initialHdID salt : string) (w : World)
  : status * string * World :=
  match fuel with
  | O => (Running initialHdID, salt, w)
  | S fuel' =>
      let '((c, initialHdID', salt'), w') :=
        iteration halURL period initialHdID salt (ticks i) w in
      match c with
      | Break => (Exited, salt', w')
      | Continue | EndOfBody =>
          loop fuel' ticks (S i) halURL period initialHdID' salt' w'
      end
  end.

(** Both variables start empty. *)
Definition main (fuel : nat) (boot : Env) (ticks : nat → Env) (w : World)
  : status * string * World :=
  let '((halURL, period), w') := startup boot w in
  loop fuel ticks 0 halURL period EmptyString EmptyString w'.

End Variant.

End InMemory.

(** ** Concrete worlds, used to run the program *)

Module Scenario.

Definition x86 : string := "{" +:+ dquote +:+ "cpu" +:+ dquote +:+ ":" +:+ dquote +:+ "x86" +:+ dquote +:+ "}".
Definition arm : string := "{" +:+ dquote +:+ "cpu" +:+ dquote +:+ ":" +:+ dquote +:+ "arm" +:+ dquote +:+ "}".

(** A decoder for the bodies served in these scenarios, and encoders for
    integers and for strings that need no escape. *)
Definition codec : JsonCodec := {|
  json_Unmarshal body :=
    if String.eqb body x86 then inl (JObject {[ "cpu" := JString "x86" ]})
    else if String.eqb body arm then inl (JObject {[ "cpu" := JString "arm" ]})
    else if String.eqb body "[]" then inl (JArray [])
    else if String.eqb body "null" then inl JNull
    else if String.eqb body "true" then inl (JBool true)
    else inr (errorString "invalid character looking for beginning of value");
  encodeFloat f := pretty f;
  encodeString s := dquote +:+ s +:+ dquote
|}.

Definition serve (status : Z) (body : string) : Response + error :=
  inl {| StatusCode := status; Body := inl body |}.

Definition refused : Response + error :=
  inr (errorString "dial tcp: connect: connection refused").

(** The facts service answers every category with [body]; the control
    plane answers a DELETE with [status]. *)
Definition network (body : string) (status : Z) (req : Request) : Response + error :=
  if String.eqb (Method req) "GET" then serve 200 body else serve status EmptyString.

Definition quiet (net : Request → Response + error) : Env := {|
  environ := ∅;
  round_trip := net;
  read_fault := λ _, None;
  write_fault := λ _, None;
  partial_write := λ _, None;
  entropy := seqZ 1 16;
  rand_fault := None
|}.

Definition with_entropy (bytes : list Z) (env : Env) : Env := {|
  environ := environ env;
  round_trip := round_trip env;
  read_fault := read_fault env;
  write_fault := write_fault env;
  partial_write := partial_write env;
  entropy := bytes;
  rand_fault := rand_fault env
|}.

Definition with_read_fault (path : string) (e : error) (env : Env) : Env := {|
  environ := environ env;
  round_trip := round_trip env;
  read_fault := λ p, if String.eqb p path then Some e else read_fault env p;
  write_fault := write_fault env;
  partial_write := partial_write env;
  entropy := entropy env;
  rand_fault := rand_fault env
|}.

(** Writes to [path] fail with [e] when the file is opened. *)
Definition with_write_fault (path : string) (e : error) (env : Env) : Env := {|
  environ := environ env;
  round_trip := round_trip env;
  read_fault := read_fault env;
  write_fault := λ p, if String.eqb p path then Some e else write_fault env p;
  partial_write := λ p, if String.eqb p path then None else partial_write env p;
  entropy := entropy env;
  rand_fault := rand_fault env
|}.

(** Writes to [path] fail with [e] after the file was created or truncated
    and [n] bytes of the data were written. *)
Definition with_partial_write (path : string) (e : error) (n : nat) (env : Env) : Env := {|
  environ := environ env;
  round_trip := round_trip env;
  read_fault := read_fault env;
  write_fault := λ p, if String.eqb p path then Some e else write_fault env p;
  partial_write := λ p, if String.eqb p path then Some n else partial_write env p;
  entropy := entropy env;
  rand_fault := rand_fault env
|}.

Definition world (files : gmap string string) : World := {| fs := files; trace := [] |}.

(** The facts service describes the original hardware, or hardware whose
    CPU was replaced, or cannot be reached, or serves a body for lsusb that is
    not JSON. *)
Definition healthy : Env := quiet (network x86 200).
Definition swapped : Env := quiet (network arm 200).
Definition unreachable : Env := quiet (λ _, refused).
Definition broken_lsusb : Env :=
  quiet (λ req, if String.eqb (URL req) "http://iofog:54331/hal/hwc/lsusb"
                then serve 200 "oops" else network x86 200 req).

(** The salt drawn from the entropy of [quiet], and the fingerprint of the
    original hardware under that salt. *)
Definition salt0 : string := "AQIDBAUGBwgJCgsMDQ4PEA==".
Definition x86_id : string :=
  "b213525a6486ebab0a00c8da615b31d5e54364cf01d641f5bb779dc207aee9ca".
Definition arm_id : string :=
  "191fcee8f51f8e06ad7cfa5e01224e81be8be9e0f8ecf02a79fc10954a51c8bd".

(** A device with its salt and baseline, with and without its token. *)
Definition provisioned : World :=
  world {[ saltFile := salt0; hwidFile := x86_id; "local-api" := " token " ]}.
Definition provisioned_without_token : World :=
  world {[ saltFile := salt0; hwidFile := x86_id ]}.

(** The random source fails; the control plane refuses the call. *)
Definition no_entropy : Env := {|
  environ := ∅;
  round_trip := network x86 200;
  read_fault := λ _, None;
  write_fault := λ _, None;
  partial_write := λ _, None;
  entropy := [];
  rand_fault := Some (errorString "unexpected EOF")
|}.
Definition rejected : Env := quiet (network arm 500).

(** The baseline record cannot be opened for writing. *)
Definition read_only_baseline : Env :=
  with_write_fault hwidFile (PathError "open" hwidFile EACCES) healthy.

(** The salt record exists but reading it fails, and the random source
    gives other bytes than the first time. *)
Definition unreadable_salt : Env :=
  with_read_fault saltFile (PathError "read" saltFile EIO)
    (with_entropy (seqZ 17 16) healthy).

(** The snapshot in which every category is [m]. *)
Definition uniform (m : gmap string json) : HardwareData :=
  {| Lscpu := Some m; Lspci := Some m; Lsusb := Some m; Lshw := Some m; CpuInfo := Some m |}.

Definition x86_data : HardwareData := uniform {[ "cpu" := JString "x86" ]}.
Definition arm_data : HardwareData := uniform {[ "cpu" := JString "arm" ]}.

(** The facts service answers every category with an empty array. *)
Definition arrays : Env := quiet (network "[]" 200).
Definition array_data : HardwareData := uniform {[ "data" := JArray [] ]}.

(** A device that was never started, and the same after the start-up of
    [main]. *)
Definition fresh : World := world ∅.
Definition booted : World := (startup healthy fresh).2.

(** A device that holds its token only; its second pass meets the
    unreadable salt record. *)
Definition with_token : World := world {[ "local-api" := " token " ]}.
Definition then_unreadable (i : nat) : Env :=
  match i with
  | O => healthy
  | S _ => unreadable_salt
  end.


(** The same network with every status code replaced by [status]. *)
Definition with_status (status : Z) (env : Env) : Env := {|
  environ := environ env;
  round_trip := λ req,
    match round_trip env req with
    | inl resp => inl {| StatusCode := status; Body := Body resp |}
    | inr e => inr e
    end;
  read_fault := read_fault env;
  write_fault := write_fault env;
  partial_write := partial_write env;
  entropy := entropy env;
  rand_fault := rand_fault env
|}.

(** PERIOD is set to five seconds. *)
Definition paced : Env := {|
  environ := {[ "PERIOD" := "5" ]};
  round_trip := network x86 200;
  read_fault := λ _, None;
  write_fault := λ _, None;
  partial_write := λ _, None;
  entropy := seqZ 1 16;
  rand_fault := None
|}.

(** The baseline record exists but reading it fails. *)
Definition unreadable_baseline : Env :=
  with_read_fault hwidFile (PathError "read" hwidFile EIO) healthy.

(** The salt record holds a single blank. *)
Definition blank_salt : World := world {[ saltFile := " " ]}.

(** The disk is full when the salt is written: the record is created and
    stays empty. *)
Definition disk_full : Env :=
  with_partial_write saltFile (PathError "write" saltFile ENOSPC) 0 healthy.

End Scenario.

(** ** Observations on a run *)

Section Observations.

Context {codec : JsonCodec}.

(** What [fetchEndpoint] returns for [url] under [env]; it does not depend on
    the world. *)
Definition fetchResult (env : Env) (url : string) : json * option error :=
  (fetchEndpoint url env {| fs := ∅; trace := [] |}).1.

(** The three ways a category fails, with the prefix of the error message
    and the underlying cause. *)
Inductive fetch_failure (env : Env) (url : string) : string → error → Prop :=
| transport_failure cause :
    round_trip env {| Method := "GET"; URL := url; Header := ∅ |} = inr cause →
    fetch_failure env url "failed to fetch " cause
| body_failure resp cause :
    round_trip env {| Method := "GET"; URL := url; Header := ∅ |} = inl resp →
    Body resp = inr cause →
    fetch_failure env url "failed to read response from " cause
| parse_failure resp body cause :
    round_trip env {| Method := "GET"; URL := url; Header := ∅ |} = inl resp →
    Body resp = inl body →
    json_Unmarshal body = inr cause →
    fetch_failure env url "failed to parse JSON from " cause.

End Observations.

(** The events added to the trace between two worlds. *)
Definition events_since (w w' : World) : list event :=
  drop (length (trace w)) (trace w').

(** A call of the revocation endpoint. *)
Definition is_deprovision (e : event) : bool :=
  match e with
  | EvHttp req => String.eqb (Method req) "DELETE" && String.eqb (URL req) deprovisionURL
  | _ => false
  end.

Definition deprovision_attempts (evs : list event) : nat :=
  length (filter (λ e, is_deprovision e = true) evs).

Definition is_sleep (e : event) : bool :=
  match e with
  | EvSleep _ => true
  | _ => false
  end.

Definition is_write_to (path : string) (e : event) : bool :=
  match e with
  | EvWriteFile p _ _ => String.eqb p path
  | _ => false
  end.

(** The request [deprovisionDevice] sends for a token. *)
Definition deprovisionRequest (authToken : string) : Request :=
  {| Method := "DELETE"; URL := deprovisionURL;
     Header := {[ "Authorization" := authToken ]} |}.

Definition is_token_read (e : event) : bool :=
  match e with
  | EvReadFile p => String.eqb p "local-api"
  | _ => false
  end.

(** The log line of the verdict of a comparison that found no change. *)
Definition is_unchanged_line (e : event) : bool :=
  match e with
  | EvLog line => String.eqb line "Hardware configuration unchanged."
  | _ => false
  end.

(** The actions of the drift monitor proper; the collector and the
    fingerprint engine perform none of them. *)
Definition monitor_event (e : event) : bool :=
  is_deprovision e || is_sleep e || is_write_to hwidFile e || is_token_read e
  || is_unchanged_line e.

(** [w'] is [w] after some more events, none of them of the monitor. *)
Definition extends_quietly (w w' : World) : Prop :=
  ∃ evs : list event,
    trace w' = (trace w ++ evs)%list ∧ Forall (λ e, monitor_event e = false) evs.

(** *** The cycle as a state machine

    How a pass through the loop ends once the collector and the fingerprint
    engine have run, and what the pass leaves behind. *)

Inductive outcome :=
| CollectionError (e : error)
| FingerprintError (e : error)
| BaselineSet (h : string) (saved : option error)
| Unchanged (h : string)
| AuthTokenError (h : string) (e : error)
| DeprovisionError (h token : string) (e : error)
| Deprovisioned (h token : string).

(** What reading the token record gives. *)
Definition tokenRecord (env : Env) (files : gmap string string) : string + error :=
  match read_fault env "local-api" with
  | Some e => inr e
  | None =>
      match files !! "local-api" with
      | Some content => inl (bytes_TrimSpace content)
      | None => inr (PathError "open" "local-api" ENOENT)
      end
  end.

(** What the control plane answers to the revocation call. *)
Definition deprovisionResult (env : Env) (token : string) : option error :=
  match round_trip env (deprovisionRequest token) with
  | inr err => Some (Errorf_w "failed to send DELETE request: " err)
  | inl resp =>
      if StatusCode resp =? StatusOK then None
      else Some (errorString ("unexpected response status: "
                              +:+ strconv_Itoa (StatusCode resp)))
  end.

Definition drift_outcome (env : Env) (files : gmap string string) (h : string) : outcome :=
  match tokenRecord env files with
  | inr e => AuthTokenError h (Errorf_w "failed to read local-api file: " e)
  | inl token =>
      match deprovisionResult env token with
      | Some e => DeprovisionError h token e
      | None => Deprovisioned h token
      end
  end.

(** The outcome for a computed fingerprint [h] against the baseline [id]. *)
Definition decide_outcome (id : string) (env : Env) (files : gmap string string)
  (h : string) : outcome :=
  if String.eqb id EmptyString then BaselineSet h (write_fault env hwidFile)
  else if String.eqb h id then Unchanged h
  else drift_outcome env files h.

Definition hash_line (h : string) : event := EvLog ("Calculated hardware hash: " +:+ h).

(** The events a pass adds after those of the collector and of the
    fingerprint engine. *)
Definition tail_events (period : Z) (o : outcome) : list event :=
  match o with
  | CollectionError e => [EvLog ("Error collecting hardware data: " +:+ Error e)]
  | FingerprintError e => [EvLog ("Error calculating hardware hash: " +:+ Error e)]
  | BaselineSet h saved =>
      [hash_line h; EvWriteFile hwidFile h perm_0600]
      ++ match saved with
         | Some e => [EvLog ("Error saving HWID to file: " +:+ Error e)]
         | None => []
         end
      ++ [EvLog "Initial hardware ID set."]
  | Unchanged h =>
      [hash_line h; EvLog "Hardware configuration unchanged.";
       EvSleep (wrap_int (period * Second))]
  | AuthTokenError h e =>
      [hash_line h; EvReadFile "local-api";
       EvLog ("Error loading auth token: " +:+ Error e)]
  | DeprovisionError h token e =>
      [hash_line h; EvReadFile "local-api"; EvHttp (deprovisionRequest token);
       EvLog ("Error deprovisioning device: " +:+ Error e)]
  | Deprovisioned h token =>
      [hash_line h; EvReadFile "local-api"; EvHttp (deprovisionRequest token);
       EvLog "Device deprovisioned due to hardware changes."]
  end.

Definition control_of (o : outcome) : control :=
  match o with
  | Deprovisioned _ _ => Break
  | Unchanged _ => EndOfBody
  | _ => Continue
  end.

Definition next_baseline (id : string) (o : outcome) : string :=
  match o with
  | BaselineSet h _ => h
  | _ => id
  end.

Definition store_after (env : Env) (o : outcome) (files : gmap string string)
  : gmap string string :=
  match o with
  | BaselineSet h None => <[hwidFile := h]> files
  | BaselineSet h (Some _) => failed_write env hwidFile h files
  | _ => files
  end.

(** The outcome of the pass that starts in world [w] with baseline [id]. *)
Definition cycle_outcome {codec : JsonCodec} (halURL id : string) (env : Env) (w : World)
  : outcome :=
  let '((hd, cerr), w1) := collectHardwareData halURL env w in
  match cerr with
  | Some e => CollectionError e
  | None =>
      let '((h, herr), _) := calculateSaltedHash hd env w1 in
      match herr with
      | Some e => FingerprintError e
      | None => decide_outcome id env (fs w) h
      end
  end.

(** The result of a pass that ends with [o] in world [w]. *)
Definition finish (env : Env) (period : Z) (id : string) (o : outcome) (w : World)
  : control * string * World :=
  ((control_of o, next_baseline id o),
   {| fs := store_after env o (fs w); trace := trace w ++ tail_events period o |}).

(** *** More observations *)

(** The request of the collector for a category. *)
Definition fetchRequest (base endpoint : string) : Request :=
  {| Method := "GET"; URL := endpointURL base endpoint; Header := ∅ |}.

(** The categories the loop of [collectHardwareData] visits among [rest]:
    all of them, or those up to the first that fails. *)
Fixpoint visited {codec : JsonCodec} (env : Env) (base : string) (rest : list string)
  : list string :=
  match rest with
  | [] => []
  | endpoint :: rest' =>
      endpoint :: match (fetchResult env (endpointURL base endpoint)).2 with
                  | Some _ => []
                  | None => visited env base rest'
                  end
  end.

(** Two environments whose network gives the same answers up to the status
    codes. *)
Definition same_bodies (env env' : Env) : Prop :=
  ∀ req,
    match round_trip env req, round_trip env' req with
    | inl resp, inl resp' => Body resp = Body resp'
    | inr e, inr e' => e = e'
    | _, _ => False
    end.

(** A printable ASCII byte that is not a space. *)
Definition plain_byte (b : Z) : bool := (33 <=? b) && (b <=? 126).

Definition plain (s : string) : Prop :=
  Forall (λ b, plain_byte b = true) (Bytes.of_string s).

(** The salt record cannot be read: the read fails or there is no record. *)
Definition salt_unreadable (env : Env) (w : World) : Prop :=
  read_fault env saltFile ≠ None ∨ fs w !! saltFile = None.

(** The bytes [rand.Read] delivers under [env]. *)
Definition drawn (env : Env) : list Z :=
  take 16 (map (λ b, b mod 256) (entropy env) ++ repeat 0 16).

(** An access to a file other than the token record. *)
Definition is_store_access (e : event) : bool :=
  match e with
  | EvWriteFile _ _ _ => true
  | EvReadFile p => negb (String.eqb p "local-api")
  | _ => false
  end.

(** [w'] is [w] with the same files and more events, none of which
    satisfies [p]. *)
Definition grows_without (p : event → bool) (w w' : World) : Prop :=
  fs w' = fs w
  ∧ ∃ evs : list event,
      trace w' = (trace w ++ evs)%list ∧ filter (λ e, p e = true) evs = [].

#[global] Arguments collectHardwareData : simpl never.
#[global] Arguments calculateSaltedHash : simpl never.
#[global] Arguments loadFromFile : simpl never.
#[global] Arguments loadAuthToken : simpl never.
#[global] Arguments deprovisionDevice : simpl never.
#[global] Arguments iteration : simpl never.
#[global] Arguments Sha256.Sum256 : simpl never.
#[global] Arguments Base64.encode : simpl never.
#[global] Arguments bytes_TrimSpace : simpl never.
#[global] Arguments strconv_Itoa : simpl never.
#[global] Arguments strconv_Atoi : simpl never.
#[global] Arguments wrap_int : simpl never.

(** * Properties *)

(** ** Byte strings *)

Lemma string_app_assoc (a b c : string) : (a +:+ b) +:+ c = a +:+ (b +:+ c).
Proof.
  induction a as [|x a IH]; [reflexivity |].
  change (String x ((a +:+ b) +:+ c) = String x (a +:+ (b +:+ c))). now rewrite IH.
Qed.

(** ** Digests *)

Lemma land_255_range (x : Z) : 0 ≤ Z.land x 255 < 256.
Proof.
  change 255 with (Z.ones 8). rewrite Z.land_ones by lia.
  apply Z.mod_pos_bound. lia.
Qed.

Lemma big_endian_length (n : nat) (x : Z) : length (Bytes.big_endian n x) = n.
Proof. induction n as [|n IH]; simpl; [reflexivity | now rewrite IH]. Qed.

Lemma big_endian_range (n : nat) (x : Z) :
  Forall (λ b, 0 ≤ b < 256) (Bytes.big_endian n x).
Proof.
  induction n as [|n IH]; simpl; constructor; [apply land_255_range | exact IH].
Qed.

Lemma Sum256_length (data : string) : length (Sha256.Sum256 data) = 32%nat.
Proof.
  unfold Sha256.Sum256, Sha256.digest_bytes. reflexivity.
Qed.

Lemma Sum256_range (data : string) : Forall (λ b, 0 ≤ b < 256) (Sha256.Sum256 data).
Proof.
  unfold Sha256.Sum256, Sha256.digest_bytes.
  generalize (fold_left Sha256.block
    (Bytes.chunks (length (Sha256.pad (Bytes.of_string data))) 64
       (Sha256.pad (Bytes.of_string data))) Sha256.init).
  intros r. simpl. repeat constructor; apply land_255_range.
Qed.

Lemma hex_length (l : list Z) : String.length (Hex.encode l) = (2 * length l)%nat.
Proof. induction l as [|b l IH]; cbn; [reflexivity | rewrite IH; lia]. Qed.

Lemma hex_digit_lower (d : Z) : 0 ≤ d < 16 → Hex.is_lower_hex (Hex.digit d) = true.
Proof.
  intros Hd.
  assert (Hcases : d ∈ [0; 1; 2; 3; 4; 5; 6; 7; 8; 9; 10; 11; 12; 13; 14; 15]).
  { rewrite !elem_of_cons. lia. }
  rewrite !elem_of_cons, elem_of_nil in Hcases.
  repeat (destruct Hcases as [-> | Hcases]; [reflexivity |]). contradiction.
Qed.

Lemma hex_lower (l : list Z) :
  Forall (λ b, 0 ≤ b < 256) l →
  Forall (λ c, Hex.is_lower_hex c = true) (list_ascii_of_string (Hex.encode l)).
Proof.
  induction 1 as [|b l Hb _ IH]; cbn; [constructor |].
  constructor; [| constructor; [| exact IH]]; apply hex_digit_lower.
  - rewrite Z.shiftr_div_pow2 by lia. change (2 ^ 4) with 16.
    split; [apply Z.div_pos; lia | apply Z.div_lt_upper_bound; lia].
  - change 15 with (Z.ones 4). rewrite Z.land_ones by lia. apply Z.mod_pos_bound. lia.
Qed.

#[global] Arguments Hex.encode : simpl never.

Lemma saltedHash_length (salt jsonData : string) :
  String.length (saltedHash salt jsonData) = 64%nat.
Proof. unfold saltedHash. now rewrite hex_length, Sum256_length. Qed.

Lemma saltedHash_nonempty (salt jsonData : string) :
  String.eqb (saltedHash salt jsonData) EmptyString = false.
Proof.
  pose proof (saltedHash_length salt jsonData) as Hlen.
  destruct (saltedHash salt jsonData); [discriminate Hlen | reflexivity].
Qed.

(** ** Running the parts of a cycle *)

Section Properties.

Context {codec : JsonCodec}.

#[local] Ltac run := unfold mbind, M_bind, mret, M_ret; cbn beta iota.

Lemma loadFromFile_run (path : string) (env : Env) (w : World) :
  loadFromFile path env w =
  (match read_fault env path with
   | Some e => (EmptyString, Some e)
   | None =>
       match fs w !! path with
       | Some content => (bytes_TrimSpace content, None)
       | None => (EmptyString, Some (PathError "open" path ENOENT))
       end
   end, emit (EvReadFile path) w).
Proof.
  unfold loadFromFile, ioutil_ReadFile. run.
  destruct (read_fault env path); [reflexivity |].
  destruct (fs w !! path); reflexivity.
Qed.

(** With a salt record that reads, the fingerprint is computed without
    touching the store. *)
Lemma calculateSaltedHash_loaded (env : Env) (w : World) (salt : string)
  (data : option HardwareData) :
  (loadFromFile saltFile env w).1 = (salt, None) →
  calculateSaltedHash data env w
  = ((saltedHash salt (json_Marshal data).1, None), emit (EvReadFile saltFile) w).
Proof.
  intros Hload. unfold calculateSaltedHash.
  destruct (json_Marshal data) as [jsonData [e|]] eqn:Hm; [destruct data; discriminate Hm |].
  run. rewrite loadFromFile_run in Hload |- *. cbn [fst] in Hload. rewrite Hload. reflexivity.
Qed.


(** C3. For every salt held by the salt record and every snapshot,
    [calculateSaltedHash] returns the lowercase hexadecimal text (64 digits)
    of SHA-256 over the bytes of the salt text followed by the JSON
    serialization of the snapshot; that serialization writes the five
    categories in the fixed order lscpu, lspci, lsusb, lshw, cpuinfo; and any
    other invocation with the same salt and snapshot, in particular the next
    one, returns the same digest. *)
Theorem fingerprint_is_salted_sha256 (env : Env) (w : World) (salt : string)
  (d : HardwareData) :
  (loadFromFile saltFile env w).1 = (salt, None) →
  let serialized :=
    "{" +:+ dquote +:+ "lscpu" +:+ dquote +:+ ":" +:+ encodeMap (Lscpu d) +:+ ","
        +:+ dquote +:+ "lspci" +:+ dquote +:+ ":" +:+ encodeMap (Lspci d) +:+ ","
        +:+ dquote +:+ "lsusb" +:+ dquote +:+ ":" +:+ encodeMap (Lsusb d) +:+ ","
        +:+ dquote +:+ "lshw" +:+ dquote +:+ ":" +:+ encodeMap (Lshw d) +:+ ","
        +:+ dquote +:+ "cpuinfo" +:+ dquote +:+ ":" +:+ encodeMap (CpuInfo d) +:+ "}" in
  let digest := Hex.encode (Sha256.Sum256 (salt +:+ serialized)) in
  (calculateSaltedHash (Some d) env w).1 = (digest, None)
  ∧ (json_Marshal (Some d)).1 = serialized
  ∧ (∀ env' w', (loadFromFile saltFile env' w').1 = (salt, None) →
       (calculateSaltedHash (Some d) env' w').1 = (digest, None))
  ∧ (calculateSaltedHash (Some d) env (calculateSaltedHash (Some d) env w).2).1
    = (digest, None)
  ∧ String.length digest = 64%nat
  ∧ Forall (λ c, Hex.is_lower_hex c = true) (list_ascii_of_string digest).
Proof.
  intros Hload serialized digest.
  assert (Hser : (json_Marshal (Some d)).1 = serialized).
  { unfold serialized. cbn. unfold encodeStruct, encodeField, join. cbn [String.concat].
    rewrite !string_app_assoc. reflexivity. }
  assert (Hany : ∀ env' w', (loadFromFile saltFile env' w').1 = (salt, None) →
            (calculateSaltedHash (Some d) env' w').1 = (digest, None)).
  { intros env' w' H'. rewrite (calculateSaltedHash_loaded _ _ salt) by exact H'.
    cbn [fst]. unfold saltedHash. rewrite Hser. reflexivity. }
  refine (conj _ (conj Hser (conj Hany (conj _ (conj _ _))))).
  - apply Hany, Hload.
  - apply Hany. rewrite (calculateSaltedHash_loaded _ _ salt) by exact Hload.
    cbn [snd]. rewrite loadFromFile_run in Hload |- *. exact Hload.
  - apply saltedHash_length.
  - apply hex_lower, Sum256_range.
Qed.

(** ** Hardware collector *)

Lemma fetchEndpoint_run (url : string) (env : Env) (w : World) :
  fetchEndpoint url env w
  = (fetchResult env url, emit (EvHttp {| Method := "GET"; URL := url; Header := ∅ |}) w).
Proof.
  unfold fetchResult, fetchEndpoint, http_Get, client_Do. run.
  destruct (round_trip env _) as [resp | err]; [| reflexivity].
  destruct (Body resp) as [body | err]; [| reflexivity].
  destruct (json_Unmarshal body); reflexivity.
Qed.

Lemma fetchResult_failure (env : Env) (url prefix : string) (cause : error) :
  fetch_failure env url prefix cause →
  fetchResult env url = (JNull, Some (Errorf_w (prefix +:+ url +:+ ": ") cause)).
Proof.
  unfold fetchResult, fetchEndpoint, http_Get, client_Do. run.
  destruct 1 as [cause Hrt | resp cause Hrt Hbody | resp body cause Hrt Hbody Hjson];
    rewrite Hrt; cbn; [| rewrite Hbody; cbn | rewrite Hbody; cbn; rewrite Hjson; cbn];
    now rewrite ?string_app_assoc.
Qed.

Lemma fetchResult_error (env : Env) (url : string) (e : error) :
  (fetchResult env url).2 = Some e →
  ∃ prefix cause,
    fetch_failure env url prefix cause ∧ e = Errorf_w (prefix +:+ url +:+ ": ") cause.
Proof.
  unfold fetchResult, fetchEndpoint, http_Get, client_Do. run.
  destruct (round_trip env _) as [resp | err] eqn:Hrt; cbn.
  - destruct (Body resp) as [body | err] eqn:Hbody; cbn.
    + destruct (json_Unmarshal body) as [data | err] eqn:Hjson; cbn; [discriminate |].
      intros [= <-]. exists "failed to parse JSON from ", err. split.
      * eapply parse_failure; eassumption.
      * now rewrite ?string_app_assoc.
    + intros [= <-]. exists "failed to read response from ", err. split.
      * eapply body_failure; eassumption.
      * now rewrite ?string_app_assoc.
  - intros [= <-]. exists "failed to fetch ", err. split.
    + now apply transport_failure.
    + now rewrite ?string_app_assoc.
Qed.

Lemma collectFrom_cons (base endpoint : string) (rest : list string)
  (data : HardwareData) (env : Env) (w : World) :
  let w' := emit (EvHttp {| Method := "GET"; URL := endpointURL base endpoint;
                            Header := ∅ |}) w in
  collectFrom base (endpoint :: rest) data env w
  = match (fetchResult env (endpointURL base endpoint)).2 with
    | Some e => ((None, Some e), w')
    | None =>
        collectFrom base rest
          (assign endpoint (parseToMap (fetchResult env (endpointURL base endpoint)).1) data)
          env w'
    end.
Proof.
  cbn [collectFrom]. run. rewrite fetchEndpoint_run.
  destruct (fetchResult env (endpointURL base endpoint)) as [result [e|]]; reflexivity.
Qed.

(** Either a snapshot and no error, or an error and no snapshot. *)
Lemma collectFrom_result (base : string) (rest : list string) (data : HardwareData)
  (env : Env) (w : World) :
  (∃ d, (collectFrom base rest data env w).1 = (Some d, None))
  ∨ (∃ e, (collectFrom base rest data env w).1 = (None, Some e)).
Proof.
  revert data w. induction rest as [|ep rest IH]; intros data w.
  - left. now exists data.
  - rewrite collectFrom_cons. cbn zeta.
    destruct (fetchResult env (endpointURL base ep)).2 as [e|]; [right; now exists e |].
    apply IH.
Qed.

(** The error of the first category that fails is returned, alone. *)
Lemma collectFrom_first_failure (base : string) (rest : list string)
  (data : HardwareData) (env : Env) (w : World) :
  Exists (λ ep, (fetchResult env (endpointURL base ep)).2 ≠ None) rest →
  ∃ ep e, ep ∈ rest
    ∧ (fetchResult env (endpointURL base ep)).2 = Some e
    ∧ (collectFrom base rest data env w).1 = (None, Some e).
Proof.
  revert data w. induction rest as [|ep rest IH]; intros data w Hex.
  - inversion Hex.
  - rewrite collectFrom_cons. cbn zeta.
    destruct (fetchResult env (endpointURL base ep)).2 as [e|] eqn:Hep.
    + exists ep, e. split; [left | split; [exact Hep | reflexivity]].
    + apply Exists_cons in Hex as [Hhd | Htl]; [congruence |].
      destruct (IH (assign ep (parseToMap (fetchResult env (endpointURL base ep)).1) data)
                   (emit (EvHttp {| Method := "GET"; URL := endpointURL base ep;
                                    Header := ∅ |}) w) Htl)
        as (ep' & e & Hin & Hfail & Hres).
      exists ep', e. split; [now right | split; assumption].
Qed.

Lemma endpointURL_inj (base ep ep' : string) :
  endpointURL base ep = endpointURL base ep' → ep = ep'.
Proof.
  unfold endpointURL. intros H.
  repeat (apply String.app_inj in H). exact H.
Qed.

(** C8. If fetching, reading or decoding any of the five categories fails,
    [collectHardwareData] returns no snapshot at all, together with an error
    that wraps the cause of a failing category (the first one in the order of
    the loop) and whose message names the URL of that category, which no other
    category shares. *)
Theorem collect_all_or_nothing (base : string) (env : Env) (w : World) :
  (∃ ep prefix cause, ep ∈ endpoints ∧ fetch_failure env (endpointURL base ep) prefix cause) →
  ∃ ep prefix cause,
    ep ∈ endpoints
    ∧ fetch_failure env (endpointURL base ep) prefix cause
    ∧ (collectHardwareData base env w).1
      = (None, Some (wrapError (prefix +:+ endpointURL base ep +:+ ": " +:+ Error cause)
                               cause))
    ∧ (∀ ep', endpointURL base ep' = endpointURL base ep → ep' = ep).
Proof.
  intros (ep0 & prefix0 & cause0 & Hin0 & Hfail0).
  destruct (collectFrom_first_failure base endpoints
              {| Lscpu := None; Lspci := None; Lsusb := None; Lshw := None; CpuInfo := None |}
              env w) as (ep & e & Hin & Hfail & Hres).
  { apply Exists_exists. exists ep0. split; [exact Hin0 |].
    rewrite (fetchResult_failure _ _ _ _ Hfail0). discriminate. }
  apply fetchResult_error in Hfail as (prefix & cause & Hff & ->).
  exists ep, prefix, cause. split; [exact Hin | split; [exact Hff | split]].
  - unfold collectHardwareData. rewrite Hres. unfold Errorf_w.
    now rewrite ?string_app_assoc.
  - intros ep'. apply endpointURL_inj.
Qed.

Lemma collectHardwareData_ok (base : string) (env : Env) (w : World) (d : HardwareData) :
  (collectHardwareData base env w).1 = (Some d, None) →
  let got endpoint := Some (parseToMap (fetchResult env (endpointURL base endpoint)).1) in
  d = {| Lscpu := got "lscpu"; Lspci := got "lspci"; Lsusb := got "lsusb";
         Lshw := got "lshw"; CpuInfo := got "proc/cpuinfo" |}
  ∧ Forall (λ ep, (fetchResult env (endpointURL base ep)).2 = None) endpoints.
Proof.
  unfold collectHardwareData, endpoints. rewrite !collectFrom_cons. cbn zeta.
  destruct (fetchResult env (endpointURL base "lscpu")).2 eqn:H1; [discriminate |].
  destruct (fetchResult env (endpointURL base "lspci")).2 eqn:H2; [discriminate |].
  destruct (fetchResult env (endpointURL base "lsusb")).2 eqn:H3; [discriminate |].
  destruct (fetchResult env (endpointURL base "lshw")).2 eqn:H4; [discriminate |].
  destruct (fetchResult env (endpointURL base "proc/cpuinfo")).2 eqn:H5; [discriminate |].
  cbn. intros [= <-]. split; [reflexivity |].
  repeat (constructor; [assumption |]). constructor.
Qed.

(** C9. [parseToMap] returns a decoded object as it is and turns every other
    decoded value (null, boolean, number, string, array) into the object with
    the single key "data" bound to that value; in a snapshot returned by
    [collectHardwareData] each of the five categories is such an object, made
    from the value decoded for its endpoint. *)
Theorem parseToMap_object_or_wrapped :
  (∀ m, parseToMap (JObject m) = m)
  ∧ parseToMap JNull = {[ "data" := JNull ]}
  ∧ (∀ b, parseToMap (JBool b) = {[ "data" := JBool b ]})
  ∧ (∀ f, parseToMap (JNumber f) = {[ "data" := JNumber f ]})
  ∧ (∀ s, parseToMap (JString s) = {[ "data" := JString s ]})
  ∧ (∀ l, parseToMap (JArray l) = {[ "data" := JArray l ]})
  ∧ (∀ base env w d,
       (collectHardwareData base env w).1 = (Some d, None) →
       Lscpu d = Some (parseToMap (fetchResult env (endpointURL base "lscpu")).1)
       ∧ Lspci d = Some (parseToMap (fetchResult env (endpointURL base "lspci")).1)
       ∧ Lsusb d = Some (parseToMap (fetchResult env (endpointURL base "lsusb")).1)
       ∧ Lshw d = Some (parseToMap (fetchResult env (endpointURL base "lshw")).1)
       ∧ CpuInfo d
         = Some (parseToMap (fetchResult env (endpointURL base "proc/cpuinfo")).1)).
Proof.
  repeat (split; [reflexivity |]).
  intros base env w d Hok. apply collectHardwareData_ok in Hok as [-> _].
  repeat split.
Qed.

(** ** Identity store, token and revocation call *)

Lemma loadAuthToken_run (env : Env) (w : World) :
  loadAuthToken env w
  = (match tokenRecord env (fs w) with
     | inr e => (EmptyString, Some (Errorf_w "failed to read local-api file: " e))
     | inl token => (token, None)
     end, emit (EvReadFile "local-api") w).
Proof.
  unfold loadAuthToken, ioutil_ReadFile, tokenRecord. run.
  destruct (read_fault env "local-api"); [reflexivity |].
  destruct (fs w !! "local-api"); reflexivity.
Qed.

Lemma deprovisionDevice_run (token : string) (env : Env) (w : World) :
  deprovisionDevice token env w
  = (deprovisionResult env token, emit (EvHttp (deprovisionRequest token)) w).
Proof.
  unfold deprovisionDevice, deprovisionResult, client_Do. cbn. run.
  change (Header_Set "Authorization" token
            {| Method := "DELETE"; URL := deprovisionURL; Header := ∅ |})
    with (deprovisionRequest token).
  destruct (round_trip env (deprovisionRequest token)) as [resp | err]; [| reflexivity].
  destruct (StatusCode resp =? StatusOK); reflexivity.
Qed.

(** A pass through the loop is the collector, then the fingerprint engine,
    then the step of the state machine. *)
Lemma iteration_spec (halURL : string) (period : Z) (id : string) (env : Env) (w : World) :
  iteration halURL period id env w
  = let '((hd, cerr), w1) := collectHardwareData halURL env w in
    match cerr with
    | Some e => finish env period id (CollectionError e) w1
    | None =>
        let '((h, herr), w2) := calculateSaltedHash hd env w1 in
        match herr with
        | Some e => finish env period id (FingerprintError e) w2
        | None => finish env period id (decide_outcome id env (fs w2) h) w2
        end
    end.
Proof.
  unfold iteration. run.
  destruct (collectHardwareData halURL env w) as [[hd [e|]] w1]; [reflexivity |].
  destruct (calculateSaltedHash hd env w1) as [[h [e|]] w2]; [reflexivity |].
  unfold decide_outcome, log_Println. cbn.
  destruct (String.eqb id EmptyString).
  - unfold saveToFile, ioutil_WriteFile, finish. cbn.
    destruct (write_fault env hwidFile); cbn; unfold emit; cbn;
      rewrite <- ?app_assoc; reflexivity.
  - destruct (String.eqb h id); cbn.
    + unfold finish, time_Sleep, emit. cbn. rewrite <- ?app_assoc. reflexivity.
    + rewrite loadAuthToken_run. unfold drift_outcome. cbn.
      destruct (tokenRecord env (fs w2)) as [token | e]; cbn.
      * rewrite deprovisionDevice_run.
        destruct (deprovisionResult env token); unfold finish, emit; cbn;
          rewrite <- ?app_assoc; reflexivity.
      * unfold finish, emit. cbn. rewrite <- ?app_assoc. reflexivity.
Qed.

(** ** What the collector and the fingerprint engine leave alone *)

Lemma extends_quietly_refl (w : World) : extends_quietly w w.
Proof. exists []. split; [now rewrite app_nil_r | constructor]. Qed.

Lemma extends_quietly_step (w w' w'' : World) (e : event) :
  extends_quietly w w' →
  trace w'' = (trace w' ++ [e])%list →
  monitor_event e = false →
  extends_quietly w w''.
Proof.
  intros (evs & Htr & Hq) Htr' He. exists (evs ++ [e])%list. split.
  - rewrite Htr', Htr. now rewrite app_assoc.
  - apply Forall_app. split; [exact Hq | now constructor].
Qed.

Lemma extends_quietly_intro (w w' : World) (evs : list event) :
  trace w' = (trace w ++ evs)%list →
  forallb (λ e, negb (monitor_event e)) evs = true →
  extends_quietly w w'.
Proof.
  intros Htr Hq. exists evs. split; [exact Htr |].
  apply Forall_forall. intros e He.
  rewrite forallb_forall in Hq. apply list_elem_of_In in He.
  specialize (Hq e He). now destruct (monitor_event e).
Qed.

Lemma extends_quietly_trans (w w' w'' : World) :
  extends_quietly w w' → extends_quietly w' w'' → extends_quietly w w''.
Proof.
  intros (evs & Htr & Hq) (evs' & Htr' & Hq'). exists (evs ++ evs')%list. split.
  - rewrite Htr', Htr. now rewrite app_assoc.
  - now apply Forall_app.
Qed.

Lemma collectFrom_frame (base : string) (rest : list string) (data : HardwareData)
  (env : Env) (w : World) :
  fs (collectFrom base rest data env w).2 = fs w
  ∧ extends_quietly w (collectFrom base rest data env w).2.
Proof.
  revert data w. induction rest as [|ep rest IH]; intros data w.
  - split; [reflexivity | apply extends_quietly_refl].
  - rewrite collectFrom_cons. cbn zeta.
    set (w' := emit _ w).
    assert (Hw' : extends_quietly w w').
    { eapply extends_quietly_step; [apply extends_quietly_refl | reflexivity | reflexivity]. }
    destruct (fetchResult env (endpointURL base ep)).2; [now split |].
    destruct (IH (assign ep (parseToMap (fetchResult env (endpointURL base ep)).1) data) w')
      as [Hfs Hq].
    split; [exact Hfs | eapply extends_quietly_trans; eassumption].
Qed.

Lemma calculateSaltedHash_frame (data : option HardwareData) (env : Env) (w : World) :
  (∀ path, path ≠ saltFile → fs (calculateSaltedHash data env w).2 !! path = fs w !! path)
  ∧ extends_quietly w (calculateSaltedHash data env w).2.
Proof.
  unfold calculateSaltedHash.
  destruct (json_Marshal data) as [jsonData [e|]] eqn:Hm; [destruct data; discriminate Hm |].
  run. rewrite loadFromFile_run.
  assert (Hread : extends_quietly w (emit (EvReadFile saltFile) w)).
  { eapply extends_quietly_step; [apply extends_quietly_refl | reflexivity | reflexivity]. }
  destruct (read_fault env saltFile) as [e|] eqn:Hfault;
    [| destruct (fs w !! saltFile) as [content|] eqn:Hfile; [now split |]].
  all: unfold log_Println, generateSalt, rand_Read, saveToFile, ioutil_WriteFile; run;
    destruct (rand_fault env); cbn;
    [| destruct (write_fault env saltFile); cbn;
       [unfold failed_write; destruct (partial_write env saltFile); cbn |]];
    (split;
     [ intros path Hpath; cbn; now rewrite ?lookup_insert_ne by congruence
     | eapply extends_quietly_intro;
       [cbn; rewrite <- ?app_assoc; reflexivity | reflexivity] ]).
Qed.

Lemma filter_quiet (p : event → bool) (evs : list event) :
  (∀ e, p e = true → monitor_event e = true) →
  Forall (λ e, monitor_event e = false) evs →
  filter (λ e, p e = true) evs = [].
Proof.
  intros Hp. induction 1 as [|e evs He _ IH]; [reflexivity |].
  rewrite filter_cons_False; [exact IH |].
  intros Hpe. apply Hp in Hpe. congruence.
Qed.

Lemma events_since_app (w w' : World) (evs : list event) :
  trace w' = (trace w ++ evs)%list → events_since w w' = evs.
Proof. unfold events_since. intros ->. now rewrite drop_app_length. Qed.

(** The collector followed by the fingerprint engine: the store changes at
    most at the salt record, and the trace grows by events that are not the
    monitor's. *)
Lemma engine_frame (halURL : string) (env : Env) (w w1 w2 : World)
  (hd : option HardwareData) (cerr : option error) (r : string * option error) :
  collectHardwareData halURL env w = ((hd, cerr), w1) →
  calculateSaltedHash hd env w1 = (r, w2) →
  fs w1 = fs w
  ∧ extends_quietly w w1
  ∧ (∀ path, path ≠ saltFile → fs w2 !! path = fs w !! path)
  ∧ extends_quietly w w2.
Proof.
  intros Hc Hh.
  destruct (collectFrom_frame halURL endpoints
              {| Lscpu := None; Lspci := None; Lsusb := None; Lshw := None; CpuInfo := None |}
              env w) as [Hfs1 Hq1].
  fold (collectHardwareData halURL) in Hfs1, Hq1. rewrite Hc in Hfs1, Hq1. cbn in Hfs1, Hq1.
  destruct (calculateSaltedHash_frame hd env w1) as [Hfs2 Hq2].
  rewrite Hh in Hfs2, Hq2. cbn in Hfs2, Hq2.
  split; [exact Hfs1 | split; [exact Hq1 | split]].
  - intros path Hpath. rewrite Hfs2 by exact Hpath. now rewrite Hfs1.
  - eapply extends_quietly_trans; eassumption.
Qed.

(** ** The cycle *)

Lemma decide_outcome_frame (id : string) (env : Env) (files files' : gmap string string)
  (h : string) :
  (∀ path, path ≠ saltFile → files' !! path = files !! path) →
  decide_outcome id env files' h = decide_outcome id env files h.
Proof.
  intros Hfs. unfold decide_outcome, drift_outcome, tokenRecord.
  now rewrite (Hfs "local-api") by discriminate.
Qed.

(** A pass in which the collector and the fingerprint engine succeed. *)
Lemma cycle_with_fingerprint (halURL : string) (period : Z) (id : string) (env : Env)
  (w w1 w2 : World) (hd : option HardwareData) (h : string) :
  collectHardwareData halURL env w = ((hd, None), w1) →
  calculateSaltedHash hd env w1 = ((h, None), w2) →
  let o := decide_outcome id env (fs w) h in
  ∃ quiet : list event,
    Forall (λ e, monitor_event e = false) quiet
    ∧ iteration halURL period id env w
      = ((control_of o, next_baseline id o),
         {| fs := store_after env o (fs w2);
            trace := (trace w ++ quiet ++ tail_events period o)%list |}).
Proof.
  intros Hc Hh o.
  destruct (engine_frame _ _ _ _ _ _ _ _ Hc Hh) as (_ & _ & Hfs & quiet & Htr & Hq).
  exists quiet. split; [exact Hq |].
  rewrite iteration_spec, Hc. cbn. rewrite Hh. cbn.
  rewrite (decide_outcome_frame id env (fs w) (fs w2) h Hfs). fold o.
  unfold finish. rewrite Htr, <- app_assoc. reflexivity.
Qed.

Lemma cycle_monitor_events (p : event → bool) (w w' : World) (quiet tail : list event) :
  (∀ e, p e = true → monitor_event e = true) →
  Forall (λ e, monitor_event e = false) quiet →
  trace w' = (trace w ++ quiet ++ tail)%list →
  filter (λ e, p e = true) (events_since w w') = filter (λ e, p e = true) tail.
Proof.
  intros Hp Hq Htr. rewrite (events_since_app w w' _ Htr), filter_app.
  now rewrite (filter_quiet p quiet Hp Hq).
Qed.

Lemma is_deprovision_monitor (e : event) : is_deprovision e = true → monitor_event e = true.
Proof. unfold monitor_event. now intros ->. Qed.

Lemma is_sleep_monitor (e : event) : is_sleep e = true → monitor_event e = true.
Proof. unfold monitor_event. intros ->. now rewrite !orb_true_r. Qed.

Lemma is_write_monitor (e : event) : is_write_to hwidFile e = true → monitor_event e = true.
Proof. unfold monitor_event. intros ->. now rewrite !orb_true_r. Qed.

Lemma is_token_read_monitor (e : event) : is_token_read e = true → monitor_event e = true.
Proof. unfold monitor_event. intros ->. now rewrite !orb_true_r. Qed.

Lemma is_unchanged_monitor (e : event) :
  is_unchanged_line e = true → monitor_event e = true.
Proof. unfold monitor_event. intros ->. now rewrite !orb_true_r. Qed.

(** Before the loop, [main] reads the baseline record once; the variable
    [initialHdID] is empty unless that read succeeds. *)
Lemma startup_baseline (boot : Env) (w : World) :
  (startup boot w).1.2
  = match read_fault boot hwidFile, fs w !! hwidFile with
    | None, Some content => bytes_TrimSpace content
    | _, _ => EmptyString
    end
  ∧ fs (startup boot w).2 = fs w.
Proof.
  unfold startup, getEnv, os_LookupEnv. run.
  destruct (environ boot !! "HAL_URL"), (environ boot !! "PERIOD"); cbn;
    match goal with
    | |- context [strconv_Atoi ?s] => destruct (strconv_Atoi s) as [period err]
    end;
    destruct (notNil err || (period <=? 0)); cbn;
    rewrite loadFromFile_run;
    destruct (read_fault boot hwidFile); cbn; try (split; reflexivity);
    destruct (fs w !! hwidFile); cbn; split; reflexivity.
Qed.

(** Every pass, whatever happens in it. *)
Lemma iteration_outcome (halURL : string) (period : Z) (id : string) (env : Env)
  (w : World) :
  let o := cycle_outcome halURL id env w in
  ∃ (quiet : list event) (files : gmap string string),
    Forall (λ e, monitor_event e = false) quiet
    ∧ (∀ path, path ≠ saltFile → files !! path = fs w !! path)
    ∧ iteration halURL period id env w
      = ((control_of o, next_baseline id o),
         {| fs := store_after env o files;
            trace := (trace w ++ quiet ++ tail_events period o)%list |}).
Proof.
  unfold cycle_outcome. rewrite iteration_spec.
  destruct (collectHardwareData halURL env w) as [[hd cerr] w1] eqn:Hc.
  destruct (calculateSaltedHash hd env w1) as [[h herr] w2] eqn:Hh.
  destruct (engine_frame _ _ _ _ _ _ _ _ Hc Hh)
    as (Hfs1 & (q1 & Htr1 & Hq1) & Hfs2 & (q2 & Htr2 & Hq2)).
  destruct cerr as [e|]; cbn.
  - exists q1, (fs w1). split; [exact Hq1 | split].
    + intros path _. now rewrite Hfs1.
    + unfold finish. rewrite Htr1, <- app_assoc. reflexivity.
  - destruct herr as [e|]; cbn.
    + exists q2, (fs w2). split; [exact Hq2 | split; [exact Hfs2 |]].
      unfold finish. rewrite Htr2, <- app_assoc. reflexivity.
    + exists q2, (fs w2). split; [exact Hq2 | split; [exact Hfs2 |]].
      rewrite (decide_outcome_frame id env (fs w) (fs w2) h Hfs2).
      unfold finish. rewrite Htr2, <- app_assoc. reflexivity.
Qed.

(** A baseline in memory is never replaced, and never written to the store. *)
Lemma monitoring_outcome (halURL id : string) (env : Env) (w : World) :
  String.eqb id EmptyString = false →
  ∀ h saved, cycle_outcome halURL id env w ≠ BaselineSet h saved.
Proof.
  intros Hid h saved. unfold cycle_outcome.
  destruct (collectHardwareData halURL env w) as [[hd [e|]] w1]; [discriminate |].
  destruct (calculateSaltedHash hd env w1) as [[h' [e|]] w2]; [discriminate |].
  unfold decide_outcome, drift_outcome. rewrite Hid.
  destruct (String.eqb h' id); [discriminate |].
  destruct (tokenRecord env (fs w)); [| discriminate].
  destruct (deprovisionResult env _); discriminate.
Qed.

Lemma monitoring_never_saves (halURL : string) (period : Z) (id : string) (env : Env)
  (w : World) :
  String.eqb id EmptyString = false →
  let r := iteration halURL period id env w in
  r.1.2 = id
  ∧ fs r.2 !! hwidFile = fs w !! hwidFile
  ∧ filter (λ e, is_write_to hwidFile e = true) (events_since w r.2) = [].
Proof.
  intros Hid.
  pose proof (monitoring_outcome halURL id env w Hid) as Hno.
  destruct (iteration_outcome halURL period id env w) as (quiet & files & Hq & Hfs & ->).
  cbn. destruct (cycle_outcome halURL id env w) as [e|e|h saved|h|h e|h t e|h t] eqn:Ho;
    try (exfalso; eapply Hno; reflexivity);
    (split; [reflexivity | split; [cbn; now apply Hfs |]]);
    (erewrite cycle_monitor_events; [| apply is_write_monitor | exact Hq | reflexivity]);
    reflexivity.
Qed.

(** A fingerprint that was computed is the digest of some salt: 64 digits. *)
Lemma calculateSaltedHash_digest (data : option HardwareData) (env : Env) (w w' : World)
  (h : string) :
  calculateSaltedHash data env w = ((h, None), w') →
  ∃ salt, h = saltedHash salt (json_Marshal data).1.
Proof.
  unfold calculateSaltedHash.
  destruct (json_Marshal data) as [jsonData [e|]] eqn:Hm; [destruct data; discriminate Hm |].
  run. rewrite loadFromFile_run.
  destruct (read_fault env saltFile) as [e|];
    [| destruct (fs w !! saltFile) as [content|];
       [intros [= <- _]; now eexists |]].
  all: unfold log_Println, generateSalt, rand_Read, saveToFile, ioutil_WriteFile; run;
    destruct (rand_fault env); cbn; [discriminate |];
    destruct (write_fault env saltFile); cbn; [discriminate |];
    intros [= <- _]; now eexists.
Qed.

(** ** Drift *)

(** C1 (amended). When a baseline is present and the fingerprint computed in
    a cycle differs from it, that cycle reads the token record exactly once;
    if the read succeeds the cycle makes exactly one deprovision call, whose
    Authorization header is the trimmed content the record has in that same
    cycle; if the read fails the cycle makes no deprovision call. *)
Theorem drift_cycle_deprovisions_with_fresh_token
  (halURL : string) (period : Z) (id : string) (env : Env) (w w1 w2 : World)
  (hd : option HardwareData) (h : string) :
  String.eqb id EmptyString = false →
  collectHardwareData halURL env w = ((hd, None), w1) →
  calculateSaltedHash hd env w1 = ((h, None), w2) →
  h ≠ id →
  let evs := events_since w (iteration halURL period id env w).2 in
  filter (λ e, is_token_read e = true) evs = [EvReadFile "local-api"]
  ∧ (∀ content,
       read_fault env "local-api" = None →
       fs w !! "local-api" = Some content →
       filter (λ e, is_deprovision e = true) evs
       = [EvHttp {| Method := "DELETE"; URL := deprovisionURL;
                    Header := {[ "Authorization" := bytes_TrimSpace content ]} |}])
  ∧ (read_fault env "local-api" ≠ None ∨ fs w !! "local-api" = None →
       filter (λ e, is_deprovision e = true) evs = []).
Proof.
  intros Hid Hc Hh Hne evs.
  destruct (cycle_with_fingerprint halURL period id env w w1 w2 hd h Hc Hh)
    as (quiet & Hq & Hit).
  assert (Ho : decide_outcome id env (fs w) h = drift_outcome env (fs w) h).
  { unfold decide_outcome. rewrite Hid.
    destruct (String.eqb_spec h id) as [-> | _]; [contradiction | reflexivity]. }
  rewrite Ho in Hit. subst evs. rewrite Hit. cbn [snd].
  split; [| split].
  - erewrite cycle_monitor_events; [| apply is_token_read_monitor | exact Hq | reflexivity].
    unfold drift_outcome.
    destruct (tokenRecord env (fs w)) as [token | e]; [| reflexivity].
    destruct (deprovisionResult env token); reflexivity.
  - intros content Hfault Hfile.
    erewrite cycle_monitor_events; [| apply is_deprovision_monitor | exact Hq | reflexivity].
    unfold drift_outcome, tokenRecord. rewrite Hfault, Hfile.
    destruct (deprovisionResult env (bytes_TrimSpace content)); reflexivity.
  - intros Hfail.
    erewrite cycle_monitor_events; [| apply is_deprovision_monitor | exact Hq | reflexivity].
    unfold drift_outcome, tokenRecord.
    destruct (read_fault env "local-api") as [e|]; [reflexivity |].
    destruct Hfail as [Hfail | ->]; [contradiction | reflexivity].
Qed.

(** ** First run *)

(** C2 (amended). Starting from a store with no baseline record, a cycle in
    which collection and fingerprinting succeed sets the in-memory baseline
    to the computed fingerprint and makes exactly one write to the baseline
    record, of that fingerprint, whether the write succeeds or not; provided
    the write succeeds, the record holds the fingerprint afterwards.  The
    cycle makes no deprovision call, reads no token, reports no comparison
    verdict, does not sleep and ends at a [continue]. *)
Theorem first_cycle_persists_baseline
  (boot env : Env) (w0 w w1 w2 : World) (halURL : string) (period : Z) (id : string)
  (hd : option HardwareData) (h : string) :
  fs w0 !! hwidFile = None →
  startup boot w0 = ((halURL, period, id), w) →
  collectHardwareData halURL env w = ((hd, None), w1) →
  calculateSaltedHash hd env w1 = ((h, None), w2) →
  let r := iteration halURL period id env w in
  let evs := events_since w r.2 in
  r.1 = (Continue, h)
  ∧ (write_fault env hwidFile = None → fs r.2 !! hwidFile = Some h)
  ∧ filter (λ e, is_write_to hwidFile e = true) evs = [EvWriteFile hwidFile h perm_0600]
  ∧ filter (λ e, is_deprovision e = true) evs = []
  ∧ filter (λ e, is_token_read e = true) evs = []
  ∧ filter (λ e, is_unchanged_line e = true) evs = []
  ∧ filter (λ e, is_sleep e = true) evs = [].
Proof.
  intros Habsent Hstart Hc Hh r evs.
  assert (Hid : id = EmptyString).
  { destruct (startup_baseline boot w0) as [Hb _]. rewrite Hstart, Habsent in Hb.
    cbn in Hb. now destruct (read_fault boot hwidFile). }
  destruct (cycle_with_fingerprint halURL period id env w w1 w2 hd h Hc Hh)
    as (quiet & Hq & Hit).
  unfold decide_outcome in Hit. rewrite Hid in Hit. cbn in Hit.
  subst evs r. rewrite Hid, Hit. cbn [fst snd fs].
  split; [reflexivity |].
  split; [intros Hwrite; rewrite Hwrite; apply lookup_insert_eq |].
  repeat split.
  - erewrite cycle_monitor_events; [| apply is_write_monitor | exact Hq | reflexivity].
    destruct (write_fault env hwidFile); reflexivity.
  - erewrite cycle_monitor_events; [| apply is_deprovision_monitor | exact Hq | reflexivity].
    destruct (write_fault env hwidFile); reflexivity.
  - erewrite cycle_monitor_events; [| apply is_token_read_monitor | exact Hq | reflexivity].
    destruct (write_fault env hwidFile); reflexivity.
  - erewrite cycle_monitor_events; [| apply is_unchanged_monitor | exact Hq | reflexivity].
    destruct (write_fault env hwidFile); reflexivity.
  - erewrite cycle_monitor_events; [| apply is_sleep_monitor | exact Hq | reflexivity].
    destruct (write_fault env hwidFile); reflexivity.
Qed.

(** C10. If the write of the baseline record fails in the first successful
    cycle, the cycle goes on and the failure is only logged: after the
    fingerprint the cycle logs it, attempts the write, logs the error and the
    line "Initial hardware ID set.", and does nothing else, so it makes no
    deprovision call, reads no token and does not sleep.  It ends at its
    [continue] with the computed fingerprint, which is not empty, as the
    in-memory baseline.  No other record is touched; the baseline record is
    as it was when the write failed at the opening of the file, and holds the
    bytes of the fingerprint that reached it when the write failed later.
    From then on every pass keeps that baseline and none writes the baseline
    record. *)
Theorem baseline_save_failure_is_only_logged
  (halURL : string) (period : Z) (env : Env) (w w1 w2 : World)
  (hd : option HardwareData) (h : string) (e : error) :
  collectHardwareData halURL env w = ((hd, None), w1) →
  calculateSaltedHash hd env w1 = ((h, None), w2) →
  write_fault env hwidFile = Some e →
  let r := iteration halURL period EmptyString env w in
  r.1 = (Continue, h)
  ∧ trace r.2
    = (trace w2 ++ [EvLog ("Calculated hardware hash: " +:+ h);
                    EvWriteFile hwidFile h perm_0600;
                    EvLog ("Error saving HWID to file: " +:+ Error e);
                    EvLog "Initial hardware ID set."])%list
  ∧ filter (λ e, is_deprovision e = true) (events_since w r.2) = []
  ∧ filter (λ e, is_token_read e = true) (events_since w r.2) = []
  ∧ filter (λ e, is_sleep e = true) (events_since w r.2) = []
  ∧ (∀ path, path ≠ hwidFile → fs r.2 !! path = fs w2 !! path)
  ∧ (partial_write env hwidFile = None →
     fs r.2 = fs w2 ∧ fs r.2 !! hwidFile = fs w !! hwidFile)
  ∧ (∀ n, partial_write env hwidFile = Some n →
       fs r.2 !! hwidFile = Some (String.substring 0 n h))
  ∧ String.eqb h EmptyString = false
  ∧ (∀ period' env' w',
       let r' := iteration halURL period' h env' w' in
       r'.1.2 = h
       ∧ fs r'.2 !! hwidFile = fs w' !! hwidFile
       ∧ filter (λ e, is_write_to hwidFile e = true) (events_since w' r'.2) = []).
Proof.
  intros Hc Hh Hwrite r.
  destruct (engine_frame _ _ _ _ _ _ _ _ Hc Hh) as (_ & _ & Hfs & quiet & Htr & Hq).
  assert (Hne : String.eqb h EmptyString = false).
  { destruct (calculateSaltedHash_digest _ _ _ _ _ Hh) as [salt ->].
    apply saltedHash_nonempty. }
  assert (Hit : r = ((Continue, h),
                     {| fs := failed_write env hwidFile h (fs w2);
                        trace := (trace w2
                                  ++ [hash_line h; EvWriteFile hwidFile h perm_0600;
                                      EvLog ("Error saving HWID to file: " +:+ Error e);
                                      EvLog "Initial hardware ID set."])%list |})).
  { subst r. rewrite iteration_spec, Hc. cbn. rewrite Hh. cbn.
    unfold decide_outcome. cbn. rewrite Hwrite. reflexivity. }
  rewrite Hit. cbn [fst snd fs trace].
  assert (Hev : ∀ p : event → bool,
            (∀ x, p x = true → monitor_event x = true) →
            p (hash_line h) = false →
            p (EvWriteFile hwidFile h perm_0600) = false →
            (∀ line, p (EvLog line) = false) →
            filter (λ x, p x = true)
              (events_since w
                 {| fs := failed_write env hwidFile h (fs w2);
                    trace := (trace w2
                              ++ [hash_line h; EvWriteFile hwidFile h perm_0600;
                                  EvLog ("Error saving HWID to file: " +:+ Error e);
                                  EvLog "Initial hardware ID set."])%list |}) = []).
  { intros p Hp H1 H2 H3. unfold events_since. cbn [trace].
    rewrite Htr, <- app_assoc, drop_app_length, filter_app, (filter_quiet p quiet Hp Hq).
    cbn [app].
    rewrite !filter_cons_False, filter_nil by (rewrite ?H1, ?H2, ?H3; discriminate).
    reflexivity. }
  split; [reflexivity |].
  split; [reflexivity |].
  split; [apply Hev; [apply is_deprovision_monitor | reflexivity ..] |].
  split; [apply Hev; [apply is_token_read_monitor | reflexivity ..] |].
  split; [apply Hev; [apply is_sleep_monitor | reflexivity ..] |].
  unfold failed_write.
  split; [| split; [| split; [| split; [exact Hne |]]]].
  - intros path Hpath. destruct (partial_write env hwidFile); [| reflexivity].
    now rewrite lookup_insert_ne by congruence.
  - intros ->. split; [reflexivity | apply Hfs; discriminate].
  - intros n ->. apply lookup_insert_eq.
  - intros period' env' w'. now apply monitoring_never_saves.
Qed.

(** ** Leaving the loop *)

Lemma deprovisionResult_ok (env : Env) (token : string) :
  deprovisionResult env token = None →
  ∃ resp, round_trip env (deprovisionRequest token) = inl resp ∧ StatusCode resp = StatusOK.
Proof.
  unfold deprovisionResult.
  destruct (round_trip env (deprovisionRequest token)) as [resp | err]; [| discriminate].
  destruct (StatusCode resp =? StatusOK) eqn:Hs; [| discriminate].
  intros _. exists resp. split; [reflexivity | now apply Z.eqb_eq].
Qed.

Lemma cycle_outcome_deprovisioned (halURL id : string) (env : Env) (w : World)
  (h token : string) :
  cycle_outcome halURL id env w = Deprovisioned h token →
  deprovisionResult env token = None.
Proof.
  unfold cycle_outcome.
  destruct (collectHardwareData halURL env w) as [[hd [e|]] w1]; [discriminate |].
  destruct (calculateSaltedHash hd env w1) as [[h' [e|]] w2]; [discriminate |].
  unfold decide_outcome, drift_outcome.
  destruct (String.eqb id EmptyString); [discriminate |].
  destruct (String.eqb h' id); [discriminate |].
  destruct (tokenRecord env (fs w)) as [token' | e]; [| discriminate].
  destruct (deprovisionResult env token') eqn:Hd; [discriminate |].
  now intros [= _ <-].
Qed.

(** The body reaches its [break] only behind an answer 200 to the call. *)
Lemma iteration_break (halURL : string) (period : Z) (id id' : string) (env : Env)
  (w w' : World) :
  iteration halURL period id env w = ((Break, id'), w') →
  ∃ token resp pre,
    round_trip env (deprovisionRequest token) = inl resp
    ∧ StatusCode resp = StatusOK
    ∧ trace w' = (pre ++ [EvHttp (deprovisionRequest token);
                          EvLog "Device deprovisioned due to hardware changes."])%list.
Proof.
  destruct (iteration_outcome halURL period id env w) as (quiet & files & _ & _ & ->).
  destruct (cycle_outcome halURL id env w) as [e|e|h saved|h|h e|h t e|h t] eqn:Ho;
    cbn; try discriminate.
  intros [= _ <-].
  apply cycle_outcome_deprovisioned, deprovisionResult_ok in Ho as (resp & Hrt & Hs).
  exists t, resp, (trace w ++ quiet ++ [hash_line h; EvReadFile "local-api"])%list.
  split; [exact Hrt | split; [exact Hs |]].
  cbn. rewrite <- !app_assoc. reflexivity.
Qed.

Lemma loop_exit (fuel : nat) (ticks : nat → Env) (i : nat) (halURL : string) (period : Z)
  (id : string) (w w' : World) :
  loop fuel ticks i halURL period id w = (Exited, w') →
  ∃ j token resp pre,
    (i ≤ j < i + fuel)%nat
    ∧ round_trip (ticks j) (deprovisionRequest token) = inl resp
    ∧ StatusCode resp = StatusOK
    ∧ trace w' = (pre ++ [EvHttp (deprovisionRequest token);
                          EvLog "Device deprovisioned due to hardware changes."])%list.
Proof.
  revert i id w. induction fuel as [|fuel IH]; intros i id w; cbn [loop]; [discriminate |].
  destruct (iteration halURL period id (ticks i) w) as [[c id1] w1] eqn:Hit.
  destruct c.
  - intros Hl. apply IH in Hl as (j & token & resp & pre & Hj & Hrest).
    exists j, token, resp, pre. split; [lia | exact Hrest].
  - intros [= <-]. apply iteration_break in Hit as (token & resp & pre & Hrest).
    exists i, token, resp, pre. split; [lia | exact Hrest].
  - intros Hl. apply IH in Hl as (j & token & resp & pre & Hj & Hrest).
    exists j, token, resp, pre. split; [lia | exact Hrest].
Qed.

(** C4. If [main] has returned after at most [fuel] passes through the loop,
    then in one of those passes the control plane answered the deprovision
    call with status 200, and that call and the log line that reports it are
    the last two actions of the process. *)
Theorem process_exits_only_after_deprovision
  (fuel : nat) (boot : Env) (ticks : nat → Env) (w : World) :
  (main fuel boot ticks w).1 = Exited →
  ∃ j token resp pre,
    (j < fuel)%nat
    ∧ round_trip (ticks j) (deprovisionRequest token) = inl resp
    ∧ StatusCode resp = StatusOK
    ∧ trace (main fuel boot ticks w).2
      = (pre ++ [EvHttp (deprovisionRequest token);
                 EvLog "Device deprovisioned due to hardware changes."])%list.
Proof.
  unfold main. destruct (startup boot w) as [[[halURL period] id] w0].
  destruct (loop fuel ticks 0 halURL period id w0) as [st w1] eqn:Hl. cbn.
  intros ->. apply loop_exit in Hl as (j & token & resp & pre & Hj & Hrest).
  exists j, token, resp, pre. split; [lia | exact Hrest].
Qed.

(** A pass sleeps only at the end of the body, after the verdict "unchanged". *)
Lemma sleep_only_when_unchanged (halURL : string) (period : Z) (id : string) (env : Env)
  (w : World) :
  filter (λ e, is_sleep e = true) (events_since w (iteration halURL period id env w).2)
  = match cycle_outcome halURL id env w with
    | Unchanged _ => [EvSleep (wrap_int (period * Second))]
    | _ => []
    end.
Proof.
  destruct (iteration_outcome halURL period id env w) as (quiet & files & Hq & _ & ->).
  erewrite cycle_monitor_events; [| apply is_sleep_monitor | exact Hq | reflexivity].
  destruct (cycle_outcome halURL id env w) as [e|e|h [e|]|h|h e|h t e|h t]; reflexivity.
Qed.

(** ** Identity store *)

(** While the salt record reads, the fingerprint engine leaves the store as
    it is. *)
Lemma salt_kept_while_readable (data : option HardwareData) (env : Env) (w : World)
  (content : string) :
  read_fault env saltFile = None →
  fs w !! saltFile = Some content →
  (calculateSaltedHash data env w).1
  = (saltedHash (bytes_TrimSpace content) (json_Marshal data).1, None)
  ∧ fs (calculateSaltedHash data env w).2 = fs w.
Proof.
  intros Hfault Hfile.
  rewrite (calculateSaltedHash_loaded env w (bytes_TrimSpace content)).
  - split; reflexivity.
  - rewrite loadFromFile_run, Hfault, Hfile. reflexivity.
Qed.

(** In the in-memory variant a salt, once drawn, is used by every later
    fingerprint of the same process, and nothing is stored. *)
Lemma in_memory_salt_reused (data : option HardwareData) (salt : string) (env : Env)
  (w : World) :
  String.eqb salt EmptyString = false →
  InMemory.calculateSaltedHash data salt env w
  = ((saltedHash salt (json_Marshal data).1, None, salt), w).
Proof.
  intros Hsalt. unfold InMemory.calculateSaltedHash.
  destruct (json_Marshal data) as [jsonData [e|]] eqn:Hm; [destruct data; discriminate Hm |].
  rewrite Hsalt. reflexivity.
Qed.

Lemma base64_nonempty (l : list Z) :
  l ≠ [] → String.eqb (Base64.encode l) EmptyString = false.
Proof. destruct l as [|a [|b [|c l]]]; [contradiction | reflexivity ..]. Qed.

Lemma drawn_nonempty (l : list Z) : take 16 (l ++ repeat 0 16)%list ≠ [].
Proof.
  intros H. apply (f_equal length) in H.
  rewrite length_take, length_app, repeat_length in H. cbn [length] in H. lia.
Qed.

Lemma in_memory_salt_drawn (data : option HardwareData) (env : Env) (w : World) :
  rand_fault env = None →
  let r := InMemory.calculateSaltedHash data EmptyString env w in
  r.1.2 = Base64.encode (take 16 (map (λ b, b mod 256) (entropy env) ++ repeat 0 16))
  ∧ String.eqb r.1.2 EmptyString = false
  ∧ fs r.2 = fs w.
Proof.
  intros Hrand. unfold InMemory.calculateSaltedHash.
  destruct (json_Marshal data) as [jsonData [e|]] eqn:Hm; [destruct data; discriminate Hm |].
  cbn. unfold generateSalt, rand_Read. run. rewrite Hrand. cbn.
  split; [reflexivity | split; [| reflexivity]].
  apply base64_nonempty, drawn_nonempty.
Qed.



(** ** White space and the texts the program stores *)

Lemma strip_front_plain (b : Z) (r : list Z) :
  plain_byte b = true → strip_space_front (b :: r) = None.
Proof.
  unfold plain_byte. intros H.
  destruct b as [|p|p]; [discriminate H | | discriminate H].
  do 7 (try destruct p as [p|p|]);
    try reflexivity; try (cbn in H; discriminate H);
    exfalso; apply andb_prop in H as [_ H]; apply Z.leb_le in H; lia.
Qed.

Lemma strip_back_plain (b : Z) (r : list Z) :
  plain_byte b = true → strip_space_back (b :: r) = None.
Proof.
  unfold plain_byte. intros H.
  destruct b as [|p|p]; [discriminate H | | discriminate H].
  do 7 (try destruct p as [p|p|]);
    try (cbn in H; discriminate H);
    try (exfalso; apply andb_prop in H as [_ H]; apply Z.leb_le in H; lia);
    clear H;
    (destruct r as [|x r]; [reflexivity |]);
    (destruct x as [|x|x]; try reflexivity);
    repeat (destruct x as [x|x|]; try reflexivity);
    (destruct r as [|y r]; [reflexivity |]);
    (destruct y as [|y|y]; try reflexivity);
    repeat (destruct y as [y|y|]; try reflexivity).
Qed.

Lemma strip_all_stops (strip : list Z → option (list Z)) (fuel : nat) (l : list Z) :
  strip l = None → strip_all strip fuel l = l.
Proof. intros H. destruct fuel; cbn; [reflexivity | now rewrite H]. Qed.

Lemma to_ascii_of_ascii (c : ascii) : Bytes.to_ascii (Bytes.of_ascii c) = c.
Proof.
  unfold Bytes.to_ascii, Bytes.of_ascii.
  pose proof (N_ascii_bounded c) as Hc.
  rewrite Z.mod_small by lia. rewrite N2Z.id. apply ascii_N_embedding.
Qed.

Lemma to_string_of_string (s : string) : Bytes.to_string (Bytes.of_string s) = s.
Proof.
  unfold Bytes.to_string, Bytes.of_string. rewrite map_map.
  rewrite (map_ext _ id) by apply to_ascii_of_ascii.
  rewrite map_id. apply string_of_list_ascii_of_string.
Qed.

(** A text of printable characters without a space is what [bytes.TrimSpace]
    returns for it. *)
Lemma TrimSpace_plain (s : string) : plain s → bytes_TrimSpace s = s.
Proof.
  unfold plain, bytes_TrimSpace. intros Hs.
  assert (Hfront : strip_all strip_space_front (length (Bytes.of_string s))
                     (Bytes.of_string s) = Bytes.of_string s).
  { destruct (Bytes.of_string s) as [|b l]; [reflexivity |].
    apply strip_all_stops, strip_front_plain. now inversion Hs. }
  cbn zeta. rewrite Hfront.
  assert (Hback : strip_all strip_space_back (length (Bytes.of_string s))
                    (rev (Bytes.of_string s)) = rev (Bytes.of_string s)).
  { apply Forall_rev in Hs.
    destruct (rev (Bytes.of_string s)) as [|b l]; [now destruct (length _) |].
    apply strip_all_stops, strip_back_plain. now inversion Hs. }
  rewrite Hback, rev_involutive. apply to_string_of_string.
Qed.

Lemma lower_hex_plain (c : ascii) :
  Hex.is_lower_hex c = true → plain_byte (Bytes.of_ascii c) = true.
Proof.
  unfold Hex.is_lower_hex, plain_byte. intros H.
  apply orb_prop in H as [H | H]; apply andb_prop in H as [H1 H2];
    apply Z.leb_le in H1, H2; apply andb_true_intro; split; apply Z.leb_le; lia.
Qed.

Lemma saltedHash_plain (salt jsonData : string) : plain (saltedHash salt jsonData).
Proof.
  unfold plain, Bytes.of_string, saltedHash. apply Forall_map.
  eapply Forall_impl; [apply hex_lower, Sum256_range |].
  intros c Hc. now apply lower_hex_plain.
Qed.

Lemma base64_char_plain (i : Z) :
  0 ≤ i < 64 → plain_byte (Bytes.of_ascii (Base64.char i)) = true.
Proof.
  intros Hi.
  assert (Hall : forallb (λ i, plain_byte (Bytes.of_ascii (Base64.char i))) (seqZ 0 64)
                 = true) by (vm_compute; reflexivity).
  rewrite forallb_forall in Hall. apply Hall.
  apply list_elem_of_In, elem_of_seqZ. lia.
Qed.

Lemma base64_sextet_plain (x k : Z) :
  plain_byte (Bytes.of_ascii (Base64.sextet x k)) = true.
Proof.
  unfold Base64.sextet. apply base64_char_plain.
  change 63 with (Z.ones 6). rewrite Z.land_ones by lia. apply Z.mod_pos_bound. lia.
Qed.

Lemma base64_plain_upto (n : nat) (l : list Z) :
  (length l ≤ n)%nat → plain (Base64.encode l).
Proof.
  unfold plain. revert l. induction n as [|n IH]; intros l Hlen.
  { destruct l; [constructor | cbn in Hlen; lia]. }
  destruct l as [|a [|b [|c l]]].
  - constructor.
  - change (Base64.encode [a])
      with (String (Base64.sextet (Z.shiftl a 16) 3)
              (String (Base64.sextet (Z.shiftl a 16) 2) "==")).
    repeat (constructor; [first [apply base64_sextet_plain | reflexivity] |]).
    constructor.
  - change (Base64.encode [a; b])
      with (let x := Z.lor (Z.shiftl a 16) (Z.shiftl b 8) in
            String (Base64.sextet x 3) (String (Base64.sextet x 2)
              (String (Base64.sextet x 1) "="))).
    repeat (constructor; [first [apply base64_sextet_plain | reflexivity] |]).
    constructor.
  - change (Base64.encode (a :: b :: c :: l))
      with (let x := Z.lor (Z.lor (Z.shiftl a 16) (Z.shiftl b 8)) c in
            String (Base64.sextet x 3) (String (Base64.sextet x 2)
              (String (Base64.sextet x 1) (String (Base64.sextet x 0)
                 (Base64.encode l))))).
    cbn zeta. unfold Bytes.of_string. cbn [list_ascii_of_string map].
    repeat (constructor; [apply base64_sextet_plain |]).
    cbn in Hlen. apply IH. lia.
Qed.

Lemma base64_plain (l : list Z) : plain (Base64.encode l).
Proof. now apply (base64_plain_upto (length l)). Qed.

(** ** The identity store as a store *)

Lemma saveToFile_run (path data : string) (env : Env) (w : World) :
  write_fault env path = None →
  saveToFile path data env w
  = (None, {| fs := <[path := data]> (fs w);
              trace := (trace w ++ [EvWriteFile path data perm_0600])%list |}).
Proof. intros H. unfold saveToFile, ioutil_WriteFile. now rewrite H. Qed.

(** X1. A record written by [saveToFile] is read back by [loadFromFile]
    trimmed of its surrounding white space; a fingerprint and a generated
    salt, which hold none, are read back exactly as written. *)
Theorem store_round_trip (path data : string) (env env' : Env) (w : World) :
  write_fault env path = None →
  read_fault env' path = None →
  (loadFromFile path env' (saveToFile path data env w).2).1 = (bytes_TrimSpace data, None)
  ∧ (∀ salt jsonData,
       data = saltedHash salt jsonData →
       (loadFromFile path env' (saveToFile path data env w).2).1 = (data, None))
  ∧ (∀ bytes,
       data = Base64.encode bytes →
       (loadFromFile path env' (saveToFile path data env w).2).1 = (data, None)).
Proof.
  intros Hw Hr.
  assert (H : (loadFromFile path env' (saveToFile path data env w).2).1
              = (bytes_TrimSpace data, None)).
  { rewrite (saveToFile_run _ _ _ _ Hw), loadFromFile_run, Hr. cbn.
    now rewrite lookup_insert_eq. }
  split; [exact H | split].
  - intros salt jsonData ->. rewrite H, TrimSpace_plain; [reflexivity |].
    apply saltedHash_plain.
  - intros bytes ->. rewrite H, TrimSpace_plain; [reflexivity | apply base64_plain].
Qed.

(** X2. The baseline that the first successful cycle persists is the value
    a later start-up of [main] loads into [initialHdID], whatever else
    happened to the other records in between. *)
Theorem baseline_survives_restart
  (halURL : string) (period : Z) (env boot : Env) (w w1 w2 later : World)
  (hd : option HardwareData) (h : string) :
  collectHardwareData halURL env w = ((hd, None), w1) →
  calculateSaltedHash hd env w1 = ((h, None), w2) →
  write_fault env hwidFile = None →
  fs later !! hwidFile = fs (iteration halURL period EmptyString env w).2 !! hwidFile →
  read_fault boot hwidFile = None →
  (startup boot later).1.2 = h.
Proof.
  intros Hc Hh Hwrite Hlater Hread.
  destruct (cycle_with_fingerprint halURL period EmptyString env w w1 w2 hd h Hc Hh)
    as (quiet & _ & Hit).
  unfold decide_outcome in Hit. rewrite Hwrite in Hit. cbn in Hit.
  rewrite Hit in Hlater. cbn in Hlater. rewrite lookup_insert_eq in Hlater.
  destruct (startup_baseline boot later) as [-> _]. rewrite Hread, Hlater.
  destruct (calculateSaltedHash_digest _ _ _ _ _ Hh) as [salt ->].
  apply TrimSpace_plain, saltedHash_plain.
Qed.


(** X4. [calculateSaltedHash] fails exactly when the salt record cannot be
    read and, in addition, the random source fails or the new salt cannot be
    written; it then returns the empty string.  No record other than the salt
    record is touched.  When the random source failed nothing is written at
    all; when the write of the new salt failed, the salt record is as it was
    if the failure came at the opening of the file, and holds the first bytes
    of the new salt that reached it, possibly none, if it came later. *)
Theorem fingerprint_fails_iff (data : option HardwareData) (env : Env) (w : World) :
  ((calculateSaltedHash data env w).1.2 ≠ None
   ↔ salt_unreadable env w ∧ (rand_fault env ≠ None ∨ write_fault env saltFile ≠ None))
  ∧ ((calculateSaltedHash data env w).1.2 ≠ None →
     (calculateSaltedHash data env w).1.1 = EmptyString
     ∧ (∀ path, path ≠ saltFile →
          fs (calculateSaltedHash data env w).2 !! path = fs w !! path)
     ∧ (rand_fault env ≠ None → fs (calculateSaltedHash data env w).2 = fs w)
     ∧ (partial_write env saltFile = None → fs (calculateSaltedHash data env w).2 = fs w)
     ∧ (∀ n, rand_fault env = None →
          partial_write env saltFile = Some n →
          fs (calculateSaltedHash data env w).2 !! saltFile
          = Some (String.substring 0 n (Base64.encode (drawn env))))).
Proof.
  pose proof (calculateSaltedHash_frame data env w) as [Hframe _]. revert Hframe.
  unfold calculateSaltedHash, salt_unreadable, drawn.
  destruct (json_Marshal data) as [jsonData [e|]] eqn:Hm; [destruct data; discriminate Hm |].
  run. rewrite loadFromFile_run.
  unfold log_Println, generateSalt, rand_Read, saveToFile, ioutil_WriteFile, failed_write.
  run.
  destruct (read_fault env saltFile) as [e|];
    [| destruct (fs w !! saltFile) as [content|]];
    destruct (rand_fault env) as [e1|]; cbn;
    destruct (write_fault env saltFile) as [e2|]; cbn;
    destruct (partial_write env saltFile) as [k|]; cbn;
    intros Hframe;
    (split; [split; [intros H; try (now contradiction H); split; auto; discriminate
                    | intros [[H | H] [H' | H']]; congruence]
            | intros H; try (now contradiction H);
              (split; [reflexivity |
               split; [exact Hframe |
               split; [intros Hr; first [reflexivity | now contradiction Hr] |
               split; [intros Hp; first [reflexivity | discriminate Hp] |
               intros n Hr Hp; try discriminate Hr; try discriminate Hp;
               injection Hp as <-; apply lookup_insert_eq]]]])]).
Qed.

(** X5. [deprovisionDevice] sends one DELETE request to the revocation
    endpoint, whose only header is Authorization with the token as given, and
    touches nothing else; it returns no error exactly when the answer has
    status 200, so any other status, 2xx included, is an error. *)
Theorem deprovision_succeeds_only_on_200 (token : string) (env : Env) (w : World) :
  events_since w (deprovisionDevice token env w).2
  = [EvHttp {| Method := "DELETE"; URL := "http://iofog:54321/v2/deprovision";
               Header := {[ "Authorization" := token ]} |}]
  ∧ fs (deprovisionDevice token env w).2 = fs w
  ∧ ((deprovisionDevice token env w).1 = None
     ↔ ∃ resp, round_trip env (deprovisionRequest token) = inl resp
               ∧ StatusCode resp = 200).
Proof.
  rewrite deprovisionDevice_run. cbn [fst snd].
  split; [now apply events_since_app | split; [reflexivity |]].
  unfold deprovisionResult, StatusOK.
  destruct (round_trip env (deprovisionRequest token)) as [resp | err].
  - destruct (Z.eqb_spec (StatusCode resp) 200) as [Hs | Hs]; split.
    + intros _. now exists resp.
    + reflexivity.
    + discriminate.
    + intros (resp' & [= <-] & Hs'). contradiction.
  - split; [discriminate | intros (resp & [=] & _)].
Qed.

(** ** More on the collector *)

Lemma collectFrom_requests (base : string) (rest : list string) (data : HardwareData)
  (env : Env) (w : World) :
  let r := collectFrom base rest data env w in
  let v := visited env base rest in
  trace r.2 = (trace w ++ map (λ ep, EvHttp (fetchRequest base ep)) v)%list
  ∧ v `prefix_of` rest
  ∧ (r.1.2 = None → v = rest)
  ∧ (∀ e, r.1.2 = Some e →
       ∃ ep, last v = Some ep ∧ (fetchResult env (endpointURL base ep)).2 = Some e).
Proof.
  revert data w. induction rest as [|ep rest IH]; intros data w.
  - cbn. rewrite app_nil_r. repeat split; [reflexivity | discriminate].
  - rewrite collectFrom_cons. cbn [visited]. cbn zeta.
    destruct (fetchResult env (endpointURL base ep)).2 as [e|] eqn:Hep.
    + cbn. split; [reflexivity | split; [| split]].
      * now exists rest.
      * discriminate.
      * intros e' [= <-]. now exists ep.
    + destruct (IH (assign ep (parseToMap (fetchResult env (endpointURL base ep)).1) data)
                   (emit (EvHttp {| Method := "GET"; URL := endpointURL base ep;
                                    Header := ∅ |}) w))
        as (Htr & Hpre & Hok & Herr).
      split; [| split; [| split]].
      * rewrite Htr. cbn. rewrite <- app_assoc. reflexivity.
      * now apply prefix_cons.
      * intros Hnone. now rewrite (Hok Hnone).
      * intros e He. destruct (Herr e He) as (ep' & Hlast & Hfail).
        exists ep'. split; [| exact Hfail].
        destruct (visited env base rest); [discriminate Hlast | exact Hlast].
Qed.

(** X6. [collectHardwareData] only sends GET requests, to the URLs of the
    five categories in their fixed order, never touches the store, and stops
    at the first category that fails: the requests sent are those of a prefix
    of the five, all five when the collection succeeds, and the last one is
    the failing one when it does not. *)
Theorem collector_requests (base : string) (env : Env) (w : World) :
  let r := collectHardwareData base env w in
  let v := visited env base endpoints in
  events_since w r.2
  = map (λ ep, EvHttp {| Method := "GET";
                         URL := "http://" +:+ base +:+ ":54331/hal/hwc/" +:+ ep;
                         Header := ∅ |}) v
  ∧ fs r.2 = fs w
  ∧ v `prefix_of` ["lscpu"; "lspci"; "lsusb"; "lshw"; "proc/cpuinfo"]
  ∧ (r.1.2 = None → v = ["lscpu"; "lspci"; "lsusb"; "lshw"; "proc/cpuinfo"])
  ∧ (∀ e, r.1.2 = Some e →
       ∃ ep, last v = Some ep ∧ (fetchResult env (endpointURL base ep)).2 = Some e).
Proof.
  intros r v.
  destruct (collectFrom_requests base endpoints
              {| Lscpu := None; Lspci := None; Lsusb := None; Lshw := None; CpuInfo := None |}
              env w) as (Htr & Hpre & Hok & Herr).
  destruct (collectFrom_frame base endpoints
              {| Lscpu := None; Lspci := None; Lsusb := None; Lshw := None; CpuInfo := None |}
              env w) as [Hfs _].
  split; [| split; [exact Hfs | split; [exact Hpre | split; [exact Hok | exact Herr]]]].
  apply events_since_app. exact Htr.
Qed.

Lemma fetchResult_same_bodies (env env' : Env) (url : string) :
  same_bodies env env' → fetchResult env url = fetchResult env' url.
Proof.
  intros Hsame. unfold fetchResult, fetchEndpoint, http_Get, client_Do. run.
  specialize (Hsame {| Method := "GET"; URL := url; Header := ∅ |}).
  destruct (round_trip env _) as [resp | e], (round_trip env' _) as [resp' | e'];
    try contradiction; cbn.
  - rewrite Hsame. destruct (Body resp') as [body | e]; [| reflexivity].
    destruct (json_Unmarshal body); reflexivity.
  - now subst.
Qed.

Lemma collectFrom_same_bodies (base : string) (rest : list string) (data : HardwareData)
  (env env' : Env) (w w' : World) :
  same_bodies env env' →
  (collectFrom base rest data env w).1 = (collectFrom base rest data env' w').1.
Proof.
  intros Hsame. revert data w w'. induction rest as [|ep rest IH]; intros data w w'.
  - reflexivity.
  - rewrite !collectFrom_cons. cbn zeta.
    rewrite <- (fetchResult_same_bodies env env' _ Hsame).
    destruct (fetchResult env (endpointURL base ep)).2; [reflexivity | apply IH].
Qed.

(** X7. The collector never looks at the HTTP status: two facts services
    that answer every request with the same body (or the same transport
    error), whatever the status codes, give the same result, snapshot or
    error, in whatever state the device is. *)
Theorem status_code_is_ignored (base : string) (env env' : Env) (w w' : World) :
  same_bodies env env' →
  (collectHardwareData base env w).1 = (collectHardwareData base env' w').1.
Proof. intros Hsame. unfold collectHardwareData. now apply collectFrom_same_bodies. Qed.

(** X8. The wrapping of [parseToMap] is not one to one: a category that
    answers a value that is not an object, and one that answers the object
    with the single member "data" bound to that value, are stored alike;
    the wrapped value is found under "data", and wrapping twice changes
    nothing. *)
Theorem wrapped_value_collides (v : json) :
  (∀ m, v ≠ JObject m) →
  parseToMap v = parseToMap (JObject {[ "data" := v ]})
  ∧ parseToMap v !! "data" = Some v
  ∧ dom (parseToMap v) = {[ "data" ]}
  ∧ parseToMap (JObject (parseToMap v)) = parseToMap v.
Proof.
  intros Hv.
  assert (H : parseToMap v = {[ "data" := v ]}).
  { destruct v as [| | | | |m]; try reflexivity. now contradiction (Hv m). }
  rewrite H. split; [reflexivity | split; [| split; [| reflexivity]]].
  - apply lookup_singleton_eq.
  - apply dom_singleton_L.
Qed.

(** ** Configuration *)

Lemma Atoi_range (s : string) (v : Z) :
  strconv_Atoi s = (v, None) → min_int ≤ v ≤ max_int.
Proof.
  unfold strconv_Atoi.
  destruct (match Bytes.of_string s with
            | 45 :: r => (true, r)
            | 43 :: r => (false, r)
            | l => (false, l)
            end) as [neg digits].
  destruct digits as [|d digits]; [discriminate |].
  destruct (parse_digits 0 (d :: digits)) as [n|]; [| discriminate].
  destruct (Z.ltb_spec (if neg then - n else n) min_int); [discriminate |].
  destruct (Z.ltb_spec max_int (if neg then - n else n)); [discriminate |].
  intros [= <-]. lia.
Qed.

Lemma startup_config_run (boot : Env) (w : World) :
  (startup boot w).1.1
  = (default defaultHALURL (environ boot !! "HAL_URL"),
     let a := strconv_Atoi (default (strconv_Itoa defaultPeriod)
                                    (environ boot !! "PERIOD")) in
     if notNil a.2 || (a.1 <=? 0) then defaultPeriod else a.1)
  ∧ fs (startup boot w).2 = fs w.
Proof.
  unfold startup, getEnv, os_LookupEnv. run.
  destruct (environ boot !! "HAL_URL") as [url|], (environ boot !! "PERIOD") as [s|]; cbn;
    match goal with
    | |- context [strconv_Atoi ?s] => destruct (strconv_Atoi s) as [v err]
    end; cbn;
    destruct (notNil err || (v <=? 0)); cbn;
    rewrite loadFromFile_run;
    destruct (read_fault boot hwidFile); cbn; try (split; reflexivity);
    destruct (fs w !! hwidFile); cbn; split; reflexivity.
Qed.

(** X9. The loop always gets a period of at least one second that fits an
    [int]: the value of PERIOD when it is a decimal number from 1 to
    2^63 - 1, and 60 when PERIOD is unset, is not such a number, or is zero or
    negative; HAL_URL is used as it is when set, even empty, and is "iofog"
    otherwise.  Start-up writes nothing. *)
Theorem startup_configuration (boot : Env) (w : World) :
  let halURL := (startup boot w).1.1.1 in
  let period := (startup boot w).1.1.2 in
  1 ≤ period ≤ 2 ^ 63 - 1
  ∧ (environ boot !! "PERIOD" = None → period = 60)
  ∧ (∀ s, environ boot !! "PERIOD" = Some s →
       (∀ v, strconv_Atoi s = (v, None) → 1 ≤ v → period = v)
       ∧ (notNil (strconv_Atoi s).2 = true ∨ (strconv_Atoi s).1 ≤ 0 → period = 60))
  ∧ halURL = default "iofog" (environ boot !! "HAL_URL")
  ∧ fs (startup boot w).2 = fs w.
Proof.
  cbn zeta. destruct (startup_config_run boot w) as [-> Hfs]. cbn [fst snd].
  assert (H60 : strconv_Atoi (strconv_Itoa defaultPeriod) = (60, None))
    by (vm_compute; reflexivity).
  split; [| split; [| split; [| split; [reflexivity | exact Hfs]]]].
  - change (2 ^ 63 - 1) with 9223372036854775807.
    destruct (strconv_Atoi (default _ _)) as [v [e|]] eqn:Ha; cbn;
      [unfold defaultPeriod; lia |].
    apply Atoi_range in Ha. change max_int with 9223372036854775807 in Ha.
    destruct (Z.leb_spec v 0); unfold defaultPeriod; lia.
  - intros ->. cbn. rewrite H60. reflexivity.
  - intros s ->. cbn. split.
    + intros v -> Hv. cbn. destruct (Z.leb_spec v 0); [lia | reflexivity].
    + destruct (strconv_Atoi s) as [v [e|]]; cbn; [reflexivity |].
      intros [Hn | Hn]; [discriminate Hn |].
      destruct (Z.leb_spec v 0); [reflexivity | lia].
Qed.

(** X10. The pause after the verdict "unchanged" is the configured period
    exactly when the period is at most 9223372036 seconds: above that, the
    64-bit product with the nanoseconds of a second wraps around and the
    duration passed to [time.Sleep] is another one. *)
Theorem unchanged_cycle_sleep (halURL : string) (period : Z) (id h : string) (env : Env)
  (w : World) :
  1 ≤ period ≤ 2 ^ 63 - 1 →
  cycle_outcome halURL id env w = Unchanged h →
  ∃ d,
    filter (λ e, is_sleep e = true) (events_since w (iteration halURL period id env w).2)
    = [EvSleep d]
    ∧ (d = period * 1000000000 ↔ period ≤ 9223372036).
Proof.
  intros Hp Ho. exists (wrap_int (period * Second)).
  rewrite sleep_only_when_unchanged, Ho. split; [reflexivity |].
  change (2 ^ 63 - 1) with 9223372036854775807 in Hp.
  unfold wrap_int, Second.
  change (2 ^ 63) with 9223372036854775808.
  change (2 ^ 64) with 18446744073709551616.
  split.
  - intros Hd. destruct (Z.le_gt_cases period 9223372036) as [Hle | Hgt]; [exact Hle |].
    pose proof (Z.mod_pos_bound (period * 1000000000 + 9223372036854775808)
                  18446744073709551616) as Hm.
    lia.
  - intros Hle. rewrite Z.mod_small by lia. lia.
Qed.

(** ** The loop *)

Lemma iteration_extends (halURL : string) (period : Z) (id : string) (env : Env)
  (w : World) :
  ∃ evs, trace (iteration halURL period id env w).2 = (trace w ++ evs)%list.
Proof.
  destruct (iteration_outcome halURL period id env w) as (quiet & files & _ & _ & ->).
  cbn. now eexists.
Qed.

Lemma loop_monitoring (fuel : nat) (ticks : nat → Env) (i : nat) (halURL : string)
  (period : Z) (id : string) (w : World) :
  String.eqb id EmptyString = false →
  let r := loop fuel ticks i halURL period id w in
  (r.1 = Exited ∨ r.1 = Running id)
  ∧ fs r.2 !! hwidFile = fs w !! hwidFile
  ∧ ∃ evs, trace r.2 = (trace w ++ evs)%list
           ∧ filter (λ e, is_write_to hwidFile e = true) evs = [].
Proof.
  intros Hid. revert i w. induction fuel as [|fuel IH]; intros i w; cbn [loop].
  - cbn. split; [now right | split; [reflexivity |]].
    exists []. now rewrite app_nil_r.
  - destruct (monitoring_never_saves halURL period id (ticks i) w Hid)
      as (Hsame & Hfs & Hnone).
    destruct (iteration_extends halURL period id (ticks i) w) as [evs Hevs].
    rewrite (events_since_app _ _ _ Hevs) in Hnone.
    destruct (iteration halURL period id (ticks i) w) as [[c id1] w1].
    cbn in Hsame, Hfs, Hevs. subst id1.
    assert (Hnext : let r := loop fuel ticks (S i) halURL period id w1 in
              (r.1 = Exited ∨ r.1 = Running id)
              ∧ fs r.2 !! hwidFile = fs w !! hwidFile
              ∧ ∃ evs, trace r.2 = (trace w ++ evs)%list
                       ∧ filter (λ e, is_write_to hwidFile e = true) evs = []).
    { destruct (IH (S i) w1) as (Hst & Hfs' & evs' & Htr' & Hnone'). cbn zeta.
      split; [exact Hst | split; [now rewrite Hfs' |]].
      exists (evs ++ evs')%list. split.
      - rewrite Htr', Hevs. now rewrite app_assoc.
      - now rewrite filter_app, Hnone, Hnone'. }
    destruct c; try exact Hnext.
    cbn. split; [now left | split; [exact Hfs |]]. now exists evs.
Qed.

(** X11. Once [main] holds a baseline, whether loaded at start-up or set by
    the first cycle, no number of passes changes it: the run either has
    exited or is still running with that same baseline, the baseline record
    is as it was, and no pass has written to it. *)
Theorem baseline_is_never_replaced (fuel : nat) (ticks : nat → Env) (i : nat)
  (halURL : string) (period : Z) (id : string) (w : World) :
  id ≠ EmptyString →
  let r := loop fuel ticks i halURL period id w in
  (r.1 = Exited ∨ r.1 = Running id)
  ∧ fs r.2 !! hwidFile = fs w !! hwidFile
  ∧ filter (λ e, is_write_to hwidFile e = true) (events_since w r.2) = [].
Proof.
  intros Hid. apply String.eqb_neq in Hid.
  destruct (loop_monitoring fuel ticks i halURL period id w Hid)
    as (Hst & Hfs & evs & Htr & Hnone).
  cbn zeta. split; [exact Hst | split; [exact Hfs |]].
  now rewrite (events_since_app _ _ _ Htr).
Qed.

Lemma collect_world_independent (base : string) (env : Env) (w w' : World) :
  (collectHardwareData base env w).1 = (collectHardwareData base env w').1.
Proof.
  unfold collectHardwareData. apply collectFrom_same_bodies.
  intros req. destruct (round_trip env req); reflexivity.
Qed.

(** A pass that finds the hardware of the baseline. *)
Lemma unchanged_pass (halURL : string) (period : Z) (env : Env) (w0 w : World)
  (hd : option HardwareData) (content : string) :
  read_fault env saltFile = None →
  fs w !! saltFile = Some content →
  (collectHardwareData halURL env w0).1 = (hd, None) →
  let id := saltedHash (bytes_TrimSpace content) (json_Marshal hd).1 in
  ∃ quiet : list event,
    Forall (λ e, monitor_event e = false) quiet
    ∧ iteration halURL period id env w
      = ((EndOfBody, id),
         {| fs := fs w;
            trace := (trace w ++ quiet ++ tail_events period (Unchanged id))%list |}).
Proof.
  intros Hread Hsalt Hc id.
  rewrite (collect_world_independent halURL env w0 w) in Hc.
  destruct (collectHardwareData halURL env w) as [[hd' cerr] w1] eqn:Hcw.
  cbn in Hc. injection Hc as -> ->.
  destruct (collectFrom_frame halURL endpoints
              {| Lscpu := None; Lspci := None; Lsusb := None; Lshw := None; CpuInfo := None |}
              env w) as [Hfs1 _].
  fold (collectHardwareData halURL) in Hfs1. rewrite Hcw in Hfs1. cbn in Hfs1.
  destruct (salt_kept_while_readable hd env w1 content Hread) as [Hh Hfs2].
  { now rewrite Hfs1. }
  destruct (calculateSaltedHash hd env w1) as [[h herr] w2] eqn:Hhw.
  cbn in Hh, Hfs2. injection Hh as -> ->.
  destruct (cycle_with_fingerprint halURL period id env w w1 w2 hd _ Hcw Hhw)
    as (quiet & Hq & Hit).
  exists quiet. split; [exact Hq |]. rewrite Hit.
  fold id. unfold decide_outcome.
  assert (Hne : String.eqb id EmptyString = false) by apply saltedHash_nonempty.
  rewrite Hne, String.eqb_refl.
  cbn. now rewrite Hfs2, Hfs1.
Qed.

Lemma stable_loop (fuel : nat) (ticks : nat → Env) (i : nat) (halURL : string)
  (period : Z) (w0 w : World) (hd : option HardwareData) (content : string) :
  (∀ j, read_fault (ticks j) saltFile = None) →
  (∀ j, (collectHardwareData halURL (ticks j) w0).1 = (hd, None)) →
  fs w !! saltFile = Some content →
  let id := saltedHash (bytes_TrimSpace content) (json_Marshal hd).1 in
  let r := loop fuel ticks i halURL period id w in
  r.1 = Running id
  ∧ fs r.2 = fs w
  ∧ ∃ evs, trace r.2 = (trace w ++ evs)%list
           ∧ filter (λ e, is_deprovision e = true) evs = []
           ∧ filter (λ e, is_token_read e = true) evs = []
           ∧ length (filter (λ e, is_sleep e = true) evs) = fuel.
Proof.
  intros Hread Hc. revert i w. induction fuel as [|fuel IH]; intros i w Hsalt id;
    cbn [loop].
  - cbn. split; [reflexivity | split; [reflexivity |]].
    exists []. now rewrite app_nil_r.
  - destruct (unchanged_pass halURL period (ticks i) w0 w hd content
                (Hread i) Hsalt (Hc i)) as (quiet & Hq & Hit).
    fold id in Hit. rewrite Hit.
    match goal with
    | |- context [loop fuel ticks (S i) halURL period id ?w1] =>
        destruct (IH (S i) w1 Hsalt) as (Hst & Hfs & evs & Htr & Hd & Ht & Hs)
    end.
    fold id in Hst, Hfs, Htr. cbn zeta.
    split; [exact Hst | split; [exact Hfs |]].
    exists ((quiet ++ tail_events period (Unchanged id)) ++ evs)%list.
    split; [rewrite Htr; cbn [trace]; now rewrite <- !app_assoc |].
    rewrite !filter_app.
    rewrite (filter_quiet is_deprovision quiet is_deprovision_monitor Hq),
      (filter_quiet is_token_read quiet is_token_read_monitor Hq),
      (filter_quiet is_sleep quiet is_sleep_monitor Hq), Hd, Ht.
    split; [reflexivity | split; [reflexivity |]].
    rewrite length_app, Hs. reflexivity.
Qed.

(** X12. As long as every pass can read the salt record and collects the
    snapshot the baseline was computed from, the process keeps running: after
    any number of passes it has not exited, has made no deprovision call and
    read no token, has left the store as it was, and has slept once per
    pass. *)
Theorem stable_hardware_keeps_running (fuel : nat) (ticks : nat → Env) (i : nat)
  (halURL : string) (period : Z) (w : World) (hd : option HardwareData)
  (content : string) :
  (∀ j, read_fault (ticks j) saltFile = None) →
  (∀ j, (collectHardwareData halURL (ticks j) w).1 = (hd, None)) →
  fs w !! saltFile = Some content →
  let id := saltedHash (bytes_TrimSpace content) (json_Marshal hd).1 in
  let r := loop fuel ticks i halURL period id w in
  r.1 = Running id
  ∧ fs r.2 = fs w
  ∧ filter (λ e, is_deprovision e = true) (events_since w r.2) = []
  ∧ filter (λ e, is_token_read e = true) (events_since w r.2) = []
  ∧ length (filter (λ e, is_sleep e = true) (events_since w r.2)) = fuel.
Proof.
  intros Hread Hc Hsalt.
  destruct (stable_loop fuel ticks i halURL period w w hd content Hread Hc Hsalt)
    as (Hst & Hfs & evs & Htr & Hd & Ht & Hs).
  cbn zeta. rewrite (events_since_app _ _ _ Htr).
  repeat split; assumption.
Qed.

(** X13. When the read of the baseline record at start-up fails, finds no
    record or finds only white space, [main] starts without a baseline, and
    the first cycle that computes a fingerprint and can write takes it as the
    baseline and replaces whatever the record held, with no deprovision call
    and no token read. *)
Theorem unusable_baseline_record_is_replaced
  (boot env : Env) (w0 w w1 w2 : World) (halURL : string) (period : Z) (id : string)
  (hd : option HardwareData) (h : string) :
  (read_fault boot hwidFile ≠ None
   ∨ fs w0 !! hwidFile = None
   ∨ ∃ content, fs w0 !! hwidFile = Some content ∧ bytes_TrimSpace content = EmptyString) →
  startup boot w0 = ((halURL, period, id), w) →
  collectHardwareData halURL env w = ((hd, None), w1) →
  calculateSaltedHash hd env w1 = ((h, None), w2) →
  write_fault env hwidFile = None →
  let r := iteration halURL period id env w in
  id = EmptyString
  ∧ r.1 = (Continue, h)
  ∧ fs r.2 !! hwidFile = Some h
  ∧ filter (λ e, is_deprovision e = true) (events_since w r.2) = []
  ∧ filter (λ e, is_token_read e = true) (events_since w r.2) = [].
Proof.
  intros Hbad Hstart Hc Hh Hwrite r.
  assert (Hid : id = EmptyString).
  { destruct (startup_baseline boot w0) as [Hb _]. rewrite Hstart in Hb. cbn in Hb.
    rewrite Hb. destruct (read_fault boot hwidFile) as [e|]; [reflexivity |].
    destruct Hbad as [Hbad | [-> | (content & -> & Hblank)]];
      [contradiction | reflexivity | exact Hblank]. }
  destruct (cycle_with_fingerprint halURL period id env w w1 w2 hd h Hc Hh)
    as (quiet & Hq & Hit).
  unfold decide_outcome in Hit. rewrite Hid, Hwrite in Hit. cbn in Hit.
  subst r. rewrite Hid, Hit. cbn [fst snd fs].
  split; [reflexivity | split; [reflexivity | split; [apply lookup_insert_eq | split]]].
  - erewrite cycle_monitor_events; [| apply is_deprovision_monitor | exact Hq | reflexivity].
    reflexivity.
  - erewrite cycle_monitor_events; [| apply is_token_read_monitor | exact Hq | reflexivity].
    reflexivity.
Qed.

(** ** The in-memory variant *)

Lemma grows_refl (p : event → bool) (w : World) : grows_without p w w.
Proof. split; [reflexivity |]. exists []. now rewrite app_nil_r. Qed.

Lemma grows_trans (p : event → bool) (w w' w'' : World) :
  grows_without p w w' → grows_without p w' w'' → grows_without p w w''.
Proof.
  intros (Hfs & evs & Htr & Hn) (Hfs' & evs' & Htr' & Hn').
  split; [now rewrite Hfs' |]. exists (evs ++ evs')%list. split.
  - rewrite Htr', Htr. now rewrite app_assoc.
  - now rewrite filter_app, Hn, Hn'.
Qed.

Lemma grows_emit (p : event → bool) (w w' : World) (e : event) :
  p e = false → grows_without p w w' → grows_without p w (emit e w').
Proof.
  intros He Hg. apply (grows_trans p w w'); [exact Hg |].
  split; [reflexivity |]. exists [e]. split; [reflexivity |].
  rewrite filter_cons_False by congruence. reflexivity.
Qed.

Lemma collect_grows (p : event → bool) (base : string) (env : Env) (w : World) :
  (∀ ep, p (EvHttp (fetchRequest base ep)) = false) →
  grows_without p w (collectHardwareData base env w).2.
Proof.
  intros Hp.
  destruct (collectFrom_requests base endpoints
              {| Lscpu := None; Lspci := None; Lsusb := None; Lshw := None; CpuInfo := None |}
              env w) as (Htr & _).
  destruct (collectFrom_frame base endpoints
              {| Lscpu := None; Lspci := None; Lsusb := None; Lshw := None; CpuInfo := None |}
              env w) as [Hfs _].
  split; [exact Hfs |]. eexists. split; [exact Htr |].
  clear Htr. induction (visited env base endpoints) as [|ep v IH]; [reflexivity |].
  cbn [map]. rewrite filter_cons_False; [exact IH |]. now rewrite Hp.
Qed.

Lemma in_memory_hash_grows (p : event → bool) (data : option HardwareData)
  (salt : string) (env : Env) (w : World) :
  p (EvRandRead 16) = false →
  grows_without p w (InMemory.calculateSaltedHash data salt env w).2.
Proof.
  intros Hp. unfold InMemory.calculateSaltedHash.
  destruct (json_Marshal data) as [jsonData [e|]] eqn:Hm; [destruct data; discriminate Hm |].
  destruct (String.eqb salt EmptyString); [| apply grows_refl].
  unfold generateSalt, rand_Read. run.
  destruct (rand_fault env); cbn; apply grows_emit; try exact Hp; apply grows_refl.
Qed.

Lemma in_memory_pass_grows (p : event → bool) (halURL : string) (period : Z)
  (id salt : string) (env : Env) (w : World) :
  (∀ req, p (EvHttp req) = false) →
  (∀ line, p (EvLog line) = false) →
  (∀ d, p (EvSleep d) = false) →
  p (EvRandRead 16) = false →
  p (EvReadFile "local-api") = false →
  grows_without p w (InMemory.iteration halURL period id salt env w).2.
Proof.
  intros Hhttp Hlog Hsleep Hrand Htoken. unfold InMemory.iteration. run.
  pose proof (collect_grows p halURL env w (λ ep, Hhttp _)) as Hc.
  destruct (collectHardwareData halURL env w) as [[hd cerr] w1]. cbn in Hc.
  destruct cerr as [e|]; cbn; [now apply grows_emit |].
  pose proof (in_memory_hash_grows p hd salt env w1 Hrand) as Hh.
  destruct (InMemory.calculateSaltedHash hd salt env w1) as [[[h herr] salt'] w2].
  cbn in Hh. pose proof (grows_trans p w w1 w2 Hc Hh) as H2.
  destruct herr as [e|]; cbn; [now apply grows_emit |].
  unfold log_Println, time_Sleep. cbn.
  destruct (String.eqb id EmptyString); cbn; [now repeat apply grows_emit |].
  destruct (String.eqb h id); cbn; [now repeat apply grows_emit |].
  rewrite loadAuthToken_run.
  destruct (tokenRecord env _) as [token | e]; cbn; [| now repeat apply grows_emit].
  rewrite deprovisionDevice_run.
  destruct (deprovisionResult env token); cbn; now repeat apply grows_emit.
Qed.

Lemma in_memory_loop_grows (p : event → bool) (fuel : nat) (ticks : nat → Env) (i : nat)
  (halURL : string) (period : Z) (id salt : string) (w : World) :
  (∀ req, p (EvHttp req) = false) →
  (∀ line, p (EvLog line) = false) →
  (∀ d, p (EvSleep d) = false) →
  p (EvRandRead 16) = false →
  p (EvReadFile "local-api") = false →
  grows_without p w (InMemory.loop fuel ticks i halURL period id salt w).2.
Proof.
  intros Hhttp Hlog Hsleep Hrand Htoken. revert i id salt w.
  induction fuel as [|fuel IH]; intros i id salt w; cbn [InMemory.loop].
  - apply grows_refl.
  - pose proof (in_memory_pass_grows p halURL period id salt (ticks i) w
                  Hhttp Hlog Hsleep Hrand Htoken) as Hp.
    destruct (InMemory.iteration halURL period id salt (ticks i) w)
      as [[[c id1] salt1] w1]. cbn in Hp.
    destruct c; try exact Hp;
      exact (grows_trans p w w1 _ Hp (IH (S i) id1 salt1 w1)).
Qed.

Lemma in_memory_startup_grows (p : event → bool) (boot : Env) (w : World) :
  (∀ line, p (EvLog line) = false) →
  grows_without p w (InMemory.startup boot w).2.
Proof.
  intros Hlog. unfold InMemory.startup, getEnv, os_LookupEnv, log_Println. run.
  destruct (environ boot !! "HAL_URL") as [url|], (environ boot !! "PERIOD") as [s|]; cbn;
    match goal with
    | |- context [strconv_Atoi ?s] => destruct (strconv_Atoi s) as [v err]
    end; cbn;
    destruct (notNil err || (v <=? 0)); cbn;
    try (apply grows_emit; [apply Hlog |]); apply grows_refl.
Qed.

(** X14. The in-memory variant has no identity store: whatever happens in a
    run, it neither writes a file nor reads one other than the token record,
    and the file system is as it was. *)
Theorem in_memory_run_never_uses_store (fuel : nat) (boot : Env) (ticks : nat → Env)
  (w : World) :
  fs (InMemory.main fuel boot ticks w).2 = fs w
  ∧ filter (λ e, is_store_access e = true)
      (events_since w (InMemory.main fuel boot ticks w).2) = [].
Proof.
  unfold InMemory.main.
  pose proof (in_memory_startup_grows is_store_access boot w (λ _, eq_refl)) as Hs.
  destruct (InMemory.startup boot w) as [[halURL period] w0]. cbn in Hs.
  pose proof (in_memory_loop_grows is_store_access fuel ticks 0 halURL period
                EmptyString EmptyString w0
                (λ _, eq_refl) (λ _, eq_refl) (λ _, eq_refl) eq_refl eq_refl) as Hl.
  destruct (grows_trans _ _ _ _ Hs Hl) as (Hfs & evs & Htr & Hn).
  split; [exact Hfs |]. now rewrite (events_since_app _ _ _ Htr).
Qed.

Lemma in_memory_pass_identity (halURL : string) (period : Z) (id salt : string)
  (env : Env) (w : World) :
  String.eqb id EmptyString = false →
  String.eqb salt EmptyString = false →
  (InMemory.iteration halURL period id salt env w).1.1.2 = id
  ∧ (InMemory.iteration halURL period id salt env w).1.2 = salt.
Proof.
  intros Hid Hsalt. unfold InMemory.iteration. run.
  destruct (collectHardwareData halURL env w) as [[hd [e|]] w1]; cbn; [now split |].
  rewrite in_memory_salt_reused by exact Hsalt. cbn.
  unfold log_Println, time_Sleep. cbn. rewrite Hid.
  destruct (String.eqb _ id); cbn; [now split |].
  rewrite loadAuthToken_run.
  destruct (tokenRecord env _) as [token | e]; cbn; [| now split].
  rewrite deprovisionDevice_run.
  destruct (deprovisionResult env token); cbn; now split.
Qed.

(** X15. In the in-memory variant, once the process holds a salt and a
    baseline, no number of passes changes either of them: the run has exited
    or is still running with that baseline, and the salt is the same. *)
Theorem in_memory_identity_is_kept (fuel : nat) (ticks : nat → Env) (i : nat)
  (halURL : string) (period : Z) (id salt : string) (w : World) :
  id ≠ EmptyString →
  salt ≠ EmptyString →
  let r := InMemory.loop fuel ticks i halURL period id salt w in
  (r.1.1 = Exited ∨ r.1.1 = Running id) ∧ r.1.2 = salt.
Proof.
  intros Hid Hsalt. apply String.eqb_neq in Hid, Hsalt.
  revert i w. induction fuel as [|fuel IH]; intros i w; cbn [InMemory.loop].
  - cbn. split; [now right | reflexivity].
  - destruct (in_memory_pass_identity halURL period id salt (ticks i) w Hid Hsalt)
      as [H1 H2].
    destruct (InMemory.iteration halURL period id salt (ticks i) w)
      as [[[c id1] salt1] w1]. cbn in H1, H2. subst id1 salt1.
    destruct c; try apply IH. cbn. split; [now left | reflexivity].
Qed.

(** X16. The in-memory variant starts every process without a baseline, so
    its first pass never deprovisions: it makes no deprovision call and reads
    no token, and the process is still running after it, whatever hardware
    the facts service describes. *)
Theorem in_memory_first_pass_never_deprovisions (boot : Env) (ticks : nat → Env)
  (w : World) :
  (InMemory.main 1 boot ticks w).1.1 ≠ Exited
  ∧ filter (λ e, is_deprovision e = true)
      (events_since w (InMemory.main 1 boot ticks w).2) = []
  ∧ filter (λ e, is_token_read e = true)
      (events_since w (InMemory.main 1 boot ticks w).2) = [].
Proof.
  unfold InMemory.main.
  pose proof (in_memory_startup_grows is_deprovision boot w (λ _, eq_refl)) as Hd.
  pose proof (in_memory_startup_grows is_token_read boot w (λ _, eq_refl)) as Ht.
  destruct (InMemory.startup boot w) as [[halURL period] w0]. cbn in Hd, Ht.
  cbn [InMemory.loop]. unfold InMemory.iteration. run.
  pose proof (collect_grows is_deprovision halURL (ticks 0%nat) w0 (λ _, eq_refl)) as Hcd.
  pose proof (collect_grows is_token_read halURL (ticks 0%nat) w0 (λ _, eq_refl)) as Hct.
  destruct (collectHardwareData halURL (ticks 0%nat) w0) as [[hd cerr] w1].
  cbn in Hcd, Hct.
  pose proof (in_memory_hash_grows is_deprovision hd EmptyString (ticks 0%nat) w1 eq_refl)
    as Hhd.
  pose proof (in_memory_hash_grows is_token_read hd EmptyString (ticks 0%nat) w1 eq_refl)
    as Hht.
  destruct cerr as [e|]; cbn;
    [| destruct (InMemory.calculateSaltedHash hd EmptyString (ticks 0%nat) w1)
         as [[[h herr] salt'] w2]; cbn in Hhd, Hht; destruct herr as [e|]; cbn].
  all: split; [discriminate |].
  all: split;
    match goal with
    | |- filter (λ e, ?p e = true) (events_since _ ?w') = [] =>
        assert (Hg : grows_without p w w');
        [ repeat (apply grows_emit; [reflexivity |]);
          eauto using grows_trans
        | destruct Hg as (_ & evs & Htr & Hn);
          now rewrite (events_since_app _ _ _ Htr) ]
    end.
Qed.

(** ** The texts of salts and fingerprints *)

Lemma of_ascii_to_ascii (b : Z) : 0 ≤ b < 256 → Bytes.of_ascii (Bytes.to_ascii b) = b.
Proof.
  intros Hb. unfold Bytes.of_ascii, Bytes.to_ascii.
  rewrite Z.mod_small by lia. rewrite N_ascii_embedding by lia. lia.
Qed.

Lemma hex_digit_inj (d d' : Z) :
  0 ≤ d < 16 → 0 ≤ d' < 16 → Hex.digit d = Hex.digit d' → d = d'.
Proof.
  intros Hd Hd' H. apply (f_equal Bytes.of_ascii) in H. unfold Hex.digit in H.
  rewrite (of_ascii_to_ascii (if d <? 10 then _ else _)) in H
    by (destruct (d <? 10); lia).
  rewrite (of_ascii_to_ascii (if d' <? 10 then _ else _)) in H
    by (destruct (d' <? 10); lia).
  revert H. destruct (Z.ltb_spec d 10), (Z.ltb_spec d' 10); lia.
Qed.

Lemma nibbles (b : Z) :
  0 ≤ b < 256 → 0 ≤ Z.shiftr b 4 < 16 ∧ 0 ≤ Z.land b 15 < 16
               ∧ b = 16 * Z.shiftr b 4 + Z.land b 15.
Proof.
  intros Hb. rewrite Z.shiftr_div_pow2 by lia. change (2 ^ 4) with 16.
  change 15 with (Z.ones 4). rewrite Z.land_ones by lia. change (2 ^ 4) with 16.
  pose proof (Z.div_mod b 16). pose proof (Z.mod_pos_bound b 16).
  split; [split; [apply Z.div_pos; lia | apply Z.div_lt_upper_bound; lia] | lia].
Qed.

Lemma hex_encode_inj (l l' : list Z) :
  Forall (λ b, 0 ≤ b < 256) l → Forall (λ b, 0 ≤ b < 256) l' →
  Hex.encode l = Hex.encode l' → l = l'.
Proof.
  intros Hl. revert l'. induction Hl as [|b l Hb _ IH]; intros l' Hl' H.
  - destruct l'; [reflexivity | discriminate H].
  - destruct Hl' as [|b' l' Hb' Hl']; [discriminate H |].
    change (String (Hex.digit (Z.shiftr b 4))
              (String (Hex.digit (Z.land b 15)) (Hex.encode l))
            = String (Hex.digit (Z.shiftr b' 4))
                (String (Hex.digit (Z.land b' 15)) (Hex.encode l'))) in H.
    injection H as H1 H2 H3.
    destruct (nibbles b Hb) as (Hh & Hlo & Hsum).
    destruct (nibbles b' Hb') as (Hh' & Hlo' & Hsum').
    apply hex_digit_inj in H1; [| assumption ..].
    apply hex_digit_inj in H2; [| assumption ..].
    f_equal; [lia | now apply IH].
Qed.

(** X17. The hexadecimal text loses nothing of the digest: two hardware IDs
    are equal exactly when the SHA-256 digests they were printed from are
    equal, so comparing IDs as strings, as [main] does, compares digests. *)
Theorem hardware_id_identifies_digest (salt jsonData salt' jsonData' : string) :
  saltedHash salt jsonData = saltedHash salt' jsonData'
  ↔ Sha256.Sum256 (salt +:+ jsonData) = Sha256.Sum256 (salt' +:+ jsonData').
Proof.
  unfold saltedHash. split; [| now intros ->].
  apply hex_encode_inj; apply Sum256_range.
Qed.

Lemma base64_length_16 (l : list Z) :
  length l = 16%nat → String.length (Base64.encode l) = 24%nat.
Proof.
  intros Hl. do 16 (destruct l as [|? l]; [discriminate Hl |]).
  destruct l; [reflexivity | discriminate Hl].
Qed.

Lemma drawn_length (env : Env) : length (drawn env) = 16%nat.
Proof.
  unfold drawn. rewrite length_take, length_app, repeat_length. lia.
Qed.

(** X18. [generateSalt] reads 16 random bytes and touches nothing else.  On
    success the salt is a text of 24 printable characters without white
    space, so it is stored and read back unchanged; when the random source
    fails the result is the empty string and an error that wraps the
    cause. *)
Theorem generateSalt_shape (env : Env) (w : World) :
  events_since w (generateSalt env w).2 = [EvRandRead 16]
  ∧ fs (generateSalt env w).2 = fs w
  ∧ (rand_fault env = None →
     ∃ salt, (generateSalt env w).1 = (salt, None)
             ∧ String.length salt = 24%nat
             ∧ plain salt
             ∧ bytes_TrimSpace salt = salt)
  ∧ (∀ e, rand_fault env = Some e →
       (generateSalt env w).1
       = (EmptyString, Some (wrapError ("failed to generate salt: " +:+ Error e) e))).
Proof.
  unfold generateSalt, rand_Read. run.
  split; [| split; [| split]].
  - destruct (rand_fault env); now apply events_since_app.
  - destruct (rand_fault env); reflexivity.
  - intros ->. cbn. exists (Base64.encode (drawn env)).
    split; [reflexivity | split; [| split]].
    + apply base64_length_16, drawn_length.
    + apply base64_plain.
    + apply TrimSpace_plain, base64_plain.
  - intros e ->. reflexivity.
Qed.

(** ** A start on changed hardware *)

Lemma startup_grows (p : event → bool) (boot : Env) (w : World) :
  (∀ line, p (EvLog line) = false) →
  p (EvReadFile hwidFile) = false →
  grows_without p w (startup boot w).2.
Proof.
  intros Hlog Hread. unfold startup, getEnv, os_LookupEnv, log_Println. run.
  destruct (environ boot !! "HAL_URL") as [url|], (environ boot !! "PERIOD") as [s|]; cbn;
    match goal with
    | |- context [strconv_Atoi ?s] => destruct (strconv_Atoi s) as [v err]
    end; cbn;
    destruct (notNil err || (v <=? 0)); cbn;
    rewrite loadFromFile_run;
    destruct (read_fault boot hwidFile); cbn;
    try destruct (fs w !! hwidFile); cbn;
    repeat (apply grows_emit; [first [apply Hlog | exact Hread] |]); apply grows_refl.
Qed.

(** X19. A process that starts with a baseline on record and whose first
    pass computes another fingerprint, reads a token and gets the answer 200
    exits in that first pass: it has made exactly one deprovision call, with
    that token, and has never slept.  The baseline record is left as it was,
    so every later start that can read it begins with the same baseline
    again. *)
Theorem changed_hardware_at_start_deprovisions
  (fuel : nat) (boot : Env) (ticks : nat → Env) (w0 w w1 w2 : World)
  (halURL : string) (period : Z) (id : string)
  (hd : option HardwareData) (h token : string) (resp : Response) :
  startup boot w0 = ((halURL, period, id), w) →
  id ≠ EmptyString →
  collectHardwareData halURL (ticks 0%nat) w = ((hd, None), w1) →
  calculateSaltedHash hd (ticks 0%nat) w1 = ((h, None), w2) →
  h ≠ id →
  tokenRecord (ticks 0%nat) (fs w0) = inl token →
  round_trip (ticks 0%nat) (deprovisionRequest token) = inl resp →
  StatusCode resp = 200 →
  let r := main (S fuel) boot ticks w0 in
  r.1 = Exited
  ∧ filter (λ e, is_deprovision e = true) (events_since w0 r.2)
    = [EvHttp (deprovisionRequest token)]
  ∧ filter (λ e, is_sleep e = true) (events_since w0 r.2) = []
  ∧ fs r.2 !! hwidFile = fs w0 !! hwidFile
  ∧ ∀ boot', read_fault boot' hwidFile = None → (startup boot' r.2).1.2 = id.
Proof.
  intros Hs Hid Hc Hh Hne Htok Hrt H200 r. subst r. unfold main. rewrite Hs. cbn [loop].
  destruct (cycle_with_fingerprint halURL period id (ticks 0%nat) w w1 w2 hd h Hc Hh)
    as (quiet & Hq & Hit).
  destruct (engine_frame _ _ _ _ _ _ _ _ Hc Hh) as (_ & _ & Hfs2 & _).
  pose proof (startup_baseline boot w0) as [Hb Hfs0]. rewrite Hs in Hb, Hfs0.
  cbn in Hb, Hfs0.
  pose proof (startup_grows is_deprovision boot w0 (λ _, eq_refl) eq_refl) as Hgd.
  pose proof (startup_grows is_sleep boot w0 (λ _, eq_refl) eq_refl) as Hgs.
  rewrite Hs in Hgd, Hgs. cbn in Hgd, Hgs.
  assert (Ho : decide_outcome id (ticks 0%nat) (fs w) h = Deprovisioned h token).
  { unfold decide_outcome, drift_outcome, deprovisionResult.
    destruct (String.eqb_spec id EmptyString) as [|_]; [contradiction |].
    destruct (String.eqb_spec h id) as [|_]; [contradiction |].
    rewrite Hfs0, Htok, Hrt, H200. reflexivity. }
  rewrite Ho in Hit. rewrite Hit. cbn.
  assert (Hrec : fs w2 !! hwidFile = fs w0 !! hwidFile).
  { rewrite Hfs2 by discriminate. now rewrite Hfs0. }
  split; [reflexivity |].
  destruct Hgd as (_ & evd & Htrd & Hnd). destruct Hgs as (_ & evs & Htrs & Hns).
  split; [| split; [| split; [exact Hrec |]]].
  - unfold events_since. cbn. rewrite Htrd, <- app_assoc, drop_app_length.
    rewrite !filter_app, Hnd, (filter_quiet is_deprovision quiet is_deprovision_monitor Hq).
    reflexivity.
  - unfold events_since. cbn. rewrite Htrs, <- app_assoc, drop_app_length.
    rewrite !filter_app, Hns, (filter_quiet is_sleep quiet is_sleep_monitor Hq).
    reflexivity.
  - intros boot' Hread.
    match goal with
    | |- (startup boot' ?x).1.2 = _ => destruct (startup_baseline boot' x) as [Hb' _]
    end.
    rewrite Hb'. cbn. rewrite Hread, Hrec.
    destruct (read_fault boot hwidFile); [contradiction |].
    destruct (fs w0 !! hwidFile); [now symmetry | contradiction].
Qed.

(** ** A blank salt record *)

(** X20. A salt record that reads but holds only white space counts as a
    salt: [calculateSaltedHash] draws nothing and writes nothing, and the
    fingerprint is the SHA-256 of the JSON text alone.  The in-memory
    variant, which tests the salt and not the read, draws a salt in that
    state. *)
Theorem blank_salt_record_is_not_replaced (data : option HardwareData) (env : Env)
  (w w' : World) (content : string) :
  read_fault env saltFile = None →
  fs w !! saltFile = Some content →
  bytes_TrimSpace content = EmptyString →
  (calculateSaltedHash data env w).1
  = (Hex.encode (Sha256.Sum256 (json_Marshal data).1), None)
  ∧ events_since w (calculateSaltedHash data env w).2 = [EvReadFile saltFile]
  ∧ fs (calculateSaltedHash data env w).2 = fs w
  ∧ events_since w' (InMemory.calculateSaltedHash data EmptyString env w').2
    = [EvRandRead 16].
Proof.
  intros Hfault Hfile Hblank.
  rewrite (calculateSaltedHash_loaded env w EmptyString)
    by (rewrite loadFromFile_run, Hfault, Hfile, Hblank; reflexivity).
  split; [reflexivity | split; [| split; [reflexivity |]]].
  - apply events_since_app. reflexivity.
  - unfold InMemory.calculateSaltedHash.
    destruct (json_Marshal data) as [jsonData [e|]] eqn:Hm; [destruct data; discriminate Hm |].
    cbn. unfold generateSalt, rand_Read. run.
    destruct (rand_fault env); cbn; apply events_since_app; reflexivity.
Qed.
End Properties.

(** * Runs of the program *)

#[local] Existing Instance Scenario.codec.

Example sha256_constants :
  length Sha256.K = 64%nat
  ∧ take 4 Sha256.K = [0x428a2f98; 0x71374491; 0xb5c0fbcf; 0xe9b5dba5]
  ∧ last Sha256.K = Some 0xc67178f2
  ∧ Sha256.ra Sha256.init = 0x6a09e667 ∧ Sha256.rh Sha256.init = 0x5be0cd19.
Proof. vm_compute. repeat split. Qed.

Example sha256_abc :
  Hex.encode (Sha256.Sum256 "abc")
  = "ba7816bf8f01cfea414140de5dae2223b00361a396177a9cb410ff61f20015ad".
Proof. vm_compute. reflexivity. Qed.

Example sha256_empty :
  Hex.encode (Sha256.Sum256 EmptyString)
  = "e3b0c44298fc1c149afbf4c8996fb92427ae41e4649b934ca495991b7852b855".
Proof. vm_compute. reflexivity. Qed.

Example sha256_two_blocks :
  Hex.encode (Sha256.Sum256 "abcdbcdecdefdefgefghfghighijhijkijkljklmklmnlmnomnopnopq")
  = "248d6a61d20638b8e5c026930c3e6039a33ce45964ff2167f6ecedd419db06c1".
Proof. vm_compute. reflexivity. Qed.

Example base64_foobar :
  (Base64.encode (Bytes.of_string "foobar"), Base64.encode (Bytes.of_string "fooba"),
   Base64.encode (Bytes.of_string "foob"))
  = ("Zm9vYmFy", "Zm9vYmE=", "Zm9vYg==").
Proof. vm_compute. reflexivity. Qed.

Example trim_space_ascii : bytes_TrimSpace "  a b   " = "a b".
Proof. vm_compute. reflexivity. Qed.

(** A no-break space (U+00A0) in front and a thin space (U+2009) behind are
    white space; a zero-width space (U+200B) is not. *)
Example trim_space_unicode :
  Bytes.of_string
    (bytes_TrimSpace (Bytes.to_string [0xC2; 0xA0; 32; 97; 0xE2; 0x80; 0x89; 10]))
  = [97]
  ∧ Bytes.of_string (bytes_TrimSpace (Bytes.to_string [0xE2; 0x80; 0x8B; 97; 9]))
    = [0xE2; 0x80; 0x8B; 97].
Proof. vm_compute. split; reflexivity. Qed.

(** Keys are written in byte order, upper case before lower case. *)
Example marshal_sorts_keys :
  encodeValue (JObject {[ "b" := JNull; "a" := JArray [JBool true; JObject ∅];
                          "B" := JNumber 1 ]})
  = "{" +:+ dquote +:+ "B" +:+ dquote +:+ ":1,"
        +:+ dquote +:+ "a" +:+ dquote +:+ ":[true,{}],"
        +:+ dquote +:+ "b" +:+ dquote +:+ ":null}".
Proof. vm_compute. reflexivity. Qed.

Example marshal_nil_fields :
  (json_Marshal (Some {| Lscpu := None; Lspci := None; Lsusb := None; Lshw := None;
                         CpuInfo := Some ∅ |})).1
  = "{" +:+ dquote +:+ "lscpu" +:+ dquote +:+ ":null,"
        +:+ dquote +:+ "lspci" +:+ dquote +:+ ":null,"
        +:+ dquote +:+ "lsusb" +:+ dquote +:+ ":null,"
        +:+ dquote +:+ "lshw" +:+ dquote +:+ ":null,"
        +:+ dquote +:+ "cpuinfo" +:+ dquote +:+ ":{}}".
Proof. vm_compute. reflexivity. Qed.

Example atoi_samples :
  (strconv_Atoi "-12").1 = -12 ∧ notNil (strconv_Atoi "12a").2 = true
  ∧ notNil (strconv_Atoi "+").2 = true
  ∧ strconv_Atoi "9223372036854775807" = (9223372036854775807, None)
  ∧ notNil (strconv_Atoi "9223372036854775808").2 = true.
Proof. vm_compute. repeat split. Qed.

(** The first pass on a fresh device draws the salt and records the
    baseline; the second finds the hardware unchanged and sleeps. *)
Example two_quiet_passes :
  let r := main 2 Scenario.healthy (λ _, Scenario.healthy) (Scenario.world ∅) in
  r.1 = Running Scenario.x86_id
  ∧ map_to_list (fs r.2) = [(saltFile, Scenario.salt0); (hwidFile, Scenario.x86_id)]
  ∧ List.filter is_sleep (trace r.2) = [EvSleep 60000000000].
Proof. vm_compute. split; [reflexivity | split; reflexivity]. Qed.

(** The witness of C3: the salt and the fingerprint of the scenario. *)
Lemma fingerprint_is_salted_sha256_witness :
  (loadFromFile saltFile Scenario.healthy Scenario.provisioned).1 = (Scenario.salt0, None)
  ∧ (calculateSaltedHash (Some Scenario.x86_data) Scenario.healthy Scenario.provisioned).1
    = (Scenario.x86_id, None).
Proof.
  assert (H : (loadFromFile saltFile Scenario.healthy Scenario.provisioned).1
              = (Scenario.salt0, None)) by (vm_compute; reflexivity).
  split; [exact H |].
  destruct (fingerprint_is_salted_sha256 Scenario.healthy Scenario.provisioned
              Scenario.salt0 Scenario.x86_data H) as [Hd _].
  rewrite Hd. vm_compute. reflexivity.
Defined.

(** The witness of C8: the body served for lsusb does not decode. *)
Lemma collect_all_or_nothing_witness :
  fetch_failure Scenario.broken_lsusb (endpointURL "iofog" "lsusb")
    "failed to parse JSON from "
    (errorString "invalid character looking for beginning of value")
  ∧ ∃ ep prefix cause,
      ep ∈ endpoints
      ∧ fetch_failure Scenario.broken_lsusb (endpointURL "iofog" ep) prefix cause
      ∧ (collectHardwareData "iofog" Scenario.broken_lsusb Scenario.fresh).1
        = (None, Some (wrapError (prefix +:+ endpointURL "iofog" ep +:+ ": " +:+ Error cause)
                                 cause))
      ∧ (∀ ep', endpointURL "iofog" ep' = endpointURL "iofog" ep → ep' = ep).
Proof.
  assert (H : fetch_failure Scenario.broken_lsusb (endpointURL "iofog" "lsusb")
                "failed to parse JSON from "
                (errorString "invalid character looking for beginning of value")).
  { apply (parse_failure _ _ {| StatusCode := 200; Body := inl "oops" |} "oops");
      vm_compute; reflexivity. }
  split; [exact H |].
  apply collect_all_or_nothing.
  exists "lsusb", "failed to parse JSON from ",
    (errorString "invalid character looking for beginning of value").
  split; [| exact H]. unfold endpoints. rewrite !elem_of_cons. tauto.
Defined.

(** The witness of C9: every category answers with an array. *)
Lemma parseToMap_object_or_wrapped_witness :
  (collectHardwareData "iofog" Scenario.arrays Scenario.fresh).1
  = (Some Scenario.array_data, None)
  ∧ Lscpu Scenario.array_data = Some (parseToMap (JArray []))
  ∧ CpuInfo Scenario.array_data = Some (parseToMap (JArray [])).
Proof.
  assert (H : (collectHardwareData "iofog" Scenario.arrays Scenario.fresh).1
              = (Some Scenario.array_data, None)) by (vm_compute; reflexivity).
  split; [exact H |].
  destruct parseToMap_object_or_wrapped as (_ & _ & _ & _ & _ & _ & Hsnap).
  destruct (Hsnap "iofog" Scenario.arrays Scenario.fresh Scenario.array_data H)
    as (Hl & _ & _ & _ & Hc).
  rewrite Hl, Hc. split; do 2 f_equal; vm_compute; reflexivity.
Defined.

(** The counterexample of C1: the baseline is present and the fingerprint of
    the cycle differs from it, but the token record is missing, and the cycle
    makes no deprovision call. *)
Lemma drift_without_token_makes_no_call :
  (startup Scenario.swapped Scenario.provisioned_without_token).1
  = ("iofog", 60, Scenario.x86_id)
  ∧ cycle_outcome "iofog" Scenario.x86_id Scenario.swapped Scenario.provisioned_without_token
    = AuthTokenError Scenario.arm_id
        (wrapError "failed to read local-api file: open local-api: no such file or directory"
                   (PathError "open" "local-api" ENOENT))
  ∧ Scenario.arm_id ≠ Scenario.x86_id
  ∧ deprovision_attempts
      (events_since Scenario.provisioned_without_token
         (iteration "iofog" 60 Scenario.x86_id Scenario.swapped
            Scenario.provisioned_without_token).2)
    = 0%nat.
Proof.
  split; [vm_compute; reflexivity |].
  split; [vm_compute; reflexivity |].
  split; [discriminate | vm_compute; reflexivity].
Defined.

(** The witness of C1 (amended): the same cycle on a device that has its
    token. *)
Lemma drift_cycle_deprovisions_with_fresh_token_witness :
  filter (λ e, is_token_read e = true)
    (events_since Scenario.provisioned
       (iteration "iofog" 60 Scenario.x86_id Scenario.swapped Scenario.provisioned).2)
  = [EvReadFile "local-api"]
  ∧ filter (λ e, is_deprovision e = true)
      (events_since Scenario.provisioned
         (iteration "iofog" 60 Scenario.x86_id Scenario.swapped Scenario.provisioned).2)
    = [EvHttp (deprovisionRequest "token")].
Proof.
  destruct (drift_cycle_deprovisions_with_fresh_token "iofog" 60 Scenario.x86_id
              Scenario.swapped Scenario.provisioned
              (collectHardwareData "iofog" Scenario.swapped Scenario.provisioned).2
              (calculateSaltedHash (Some Scenario.arm_data) Scenario.swapped
                 (collectHardwareData "iofog" Scenario.swapped Scenario.provisioned).2).2
              (Some Scenario.arm_data) Scenario.arm_id)
    as (Hread & Hcall & _).
  - reflexivity.
  - vm_compute. reflexivity.
  - vm_compute. reflexivity.
  - discriminate.
  - split; [exact Hread |]. apply (Hcall " token "); reflexivity.
Defined.

(** The counterexample of C2: on a fresh device whose baseline record cannot
    be written, the first cycle collects, computes the fingerprint and takes
    it as baseline, and leaves the store without a baseline record. *)
Lemma first_cycle_baseline_not_persisted :
  fs Scenario.fresh !! hwidFile = None
  ∧ cycle_outcome "iofog" EmptyString Scenario.read_only_baseline Scenario.booted
    = BaselineSet Scenario.x86_id (Some (PathError "open" hwidFile EACCES))
  ∧ (main 1 Scenario.healthy (λ _, Scenario.read_only_baseline) Scenario.fresh).1
    = Running Scenario.x86_id
  ∧ fs (main 1 Scenario.healthy (λ _, Scenario.read_only_baseline) Scenario.fresh).2
      !! hwidFile = None.
Proof.
  split; [reflexivity |].
  split; [vm_compute; reflexivity |].
  split; vm_compute; reflexivity.
Defined.

(** The witness of C2 (amended): the first cycle of a fresh device. *)
Lemma first_cycle_persists_baseline_witness :
  (iteration "iofog" 60 EmptyString Scenario.healthy Scenario.booted).1
  = (Continue, Scenario.x86_id)
  ∧ fs (iteration "iofog" 60 EmptyString Scenario.healthy Scenario.booted).2 !! hwidFile
    = Some Scenario.x86_id
  ∧ filter (λ e, is_deprovision e = true)
      (events_since Scenario.booted
         (iteration "iofog" 60 EmptyString Scenario.healthy Scenario.booted).2)
    = [].
Proof.
  destruct (first_cycle_persists_baseline Scenario.healthy Scenario.healthy
              Scenario.fresh Scenario.booted
              (collectHardwareData "iofog" Scenario.healthy Scenario.booted).2
              (calculateSaltedHash (Some Scenario.x86_data) Scenario.healthy
                 (collectHardwareData "iofog" Scenario.healthy Scenario.booted).2).2
              "iofog" 60 EmptyString (Some Scenario.x86_data) Scenario.x86_id)
    as (Hres & Hfile & _ & Hcalls & _).
  - reflexivity.
  - vm_compute. reflexivity.
  - vm_compute. reflexivity.
  - vm_compute. reflexivity.
  - split; [exact Hres | split; [apply Hfile; reflexivity | exact Hcalls]].
Defined.

(** The witness of C10: the same cycle when the baseline record cannot be
    written. *)
Lemma baseline_save_failure_is_only_logged_witness :
  (iteration "iofog" 60 EmptyString Scenario.read_only_baseline Scenario.booted).1
  = (Continue, Scenario.x86_id)
  ∧ fs (iteration "iofog" 60 EmptyString Scenario.read_only_baseline Scenario.booted).2
      !! hwidFile = None
  ∧ filter (λ e, is_deprovision e = true)
      (events_since Scenario.booted
         (iteration "iofog" 60 EmptyString Scenario.read_only_baseline Scenario.booted).2)
    = []
  ∧ filter (λ e, is_token_read e = true)
      (events_since Scenario.booted
         (iteration "iofog" 60 EmptyString Scenario.read_only_baseline Scenario.booted).2)
    = [].
Proof.
  destruct (baseline_save_failure_is_only_logged "iofog" 60 Scenario.read_only_baseline
              Scenario.booted
              (collectHardwareData "iofog" Scenario.read_only_baseline Scenario.booted).2
              (calculateSaltedHash (Some Scenario.x86_data) Scenario.read_only_baseline
                 (collectHardwareData "iofog" Scenario.read_only_baseline
                    Scenario.booted).2).2
              (Some Scenario.x86_data) Scenario.x86_id (PathError "open" hwidFile EACCES))
    as (Hres & _ & Hcalls & Htoken & _ & _ & Hopen & _).
  - vm_compute. reflexivity.
  - vm_compute. reflexivity.
  - reflexivity.
  - destruct (Hopen eq_refl) as [_ Hfile].
    split; [exact Hres | split; [rewrite Hfile; reflexivity | split; assumption]].
Defined.

(** The witness of C4: the hardware of a provisioned device was changed and
    the control plane accepts the call. *)
Lemma process_exits_only_after_deprovision_witness :
  (main 1 Scenario.healthy (λ _, Scenario.swapped) Scenario.provisioned).1 = Exited
  ∧ ∃ j token resp pre,
      (j < 1)%nat
      ∧ round_trip Scenario.swapped (deprovisionRequest token) = inl resp
      ∧ StatusCode resp = StatusOK
      ∧ trace (main 1 Scenario.healthy (λ _, Scenario.swapped) Scenario.provisioned).2
        = (pre ++ [EvHttp (deprovisionRequest token);
                   EvLog "Device deprovisioned due to hardware changes."])%list.
Proof.
  assert (H : (main 1 Scenario.healthy (λ _, Scenario.swapped) Scenario.provisioned).1
              = Exited) by (vm_compute; reflexivity).
  split; [exact H |].
  exact (process_exits_only_after_deprovision 1 Scenario.healthy (λ _, Scenario.swapped)
           Scenario.provisioned H).
Defined.

(** C5. Two passes that fail, at the fingerprint (no random bytes for the
    salt), at the read of the token, or at the deprovision call (status 500),
    leave a trace without any sleep; and when the facts service cannot be
    reached each pass fails at its first request, logs the error and is
    followed at once by the next pass.  A pass sleeps only after the verdict
    "unchanged" ([sleep_only_when_unchanged]). *)
Theorem error_cycles_run_without_sleep :
  (main 2 Scenario.no_entropy (λ _, Scenario.no_entropy) Scenario.fresh).1
  = Running EmptyString
  ∧ List.filter is_sleep
      (trace (main 2 Scenario.no_entropy (λ _, Scenario.no_entropy) Scenario.fresh).2) = []
  ∧ (main 2 Scenario.swapped (λ _, Scenario.swapped) Scenario.provisioned_without_token).1
    = Running Scenario.x86_id
  ∧ List.filter is_sleep
      (trace (main 2 Scenario.swapped (λ _, Scenario.swapped)
                Scenario.provisioned_without_token).2) = []
  ∧ (main 2 Scenario.rejected (λ _, Scenario.rejected) Scenario.provisioned).1
    = Running Scenario.x86_id
  ∧ List.filter is_sleep
      (trace (main 2 Scenario.rejected (λ _, Scenario.rejected) Scenario.provisioned).2) = []
  ∧ trace (main 2 Scenario.unreachable (λ _, Scenario.unreachable) Scenario.fresh).2
  = [ EvReadFile "id/hw-id";
      EvLog "HWID not found, will calculate on first run.";
      EvHttp {| Method := "GET"; URL := "http://iofog:54331/hal/hwc/lscpu"; Header := ∅ |};
      EvLog ("Error collecting hardware data: failed to fetch "
             +:+ "http://iofog:54331/hal/hwc/lscpu: dial tcp: connect: connection refused");
      EvHttp {| Method := "GET"; URL := "http://iofog:54331/hal/hwc/lscpu"; Header := ∅ |};
      EvLog ("Error collecting hardware data: failed to fetch "
             +:+ "http://iofog:54331/hal/hwc/lscpu: dial tcp: connect: connection refused") ].
Proof. vm_compute. repeat (split; [reflexivity |]). reflexivity. Qed.

(** C6. The first pass of a fresh device draws a salt and stores it with the
    baseline.  In the second pass the hardware facts are the same but the
    read of the salt record fails: a new salt replaces the stored one, the
    fingerprint no longer matches the baseline, and the device is
    deprovisioned. *)
Theorem salt_regenerated_after_read_fault :
  fs (main 1 Scenario.healthy Scenario.then_unreadable Scenario.with_token).2 !! saltFile
  = Some "AQIDBAUGBwgJCgsMDQ4PEA=="
  ∧ (main 1 Scenario.healthy Scenario.then_unreadable Scenario.with_token).1
    = Running Scenario.x86_id
  ∧ round_trip (Scenario.then_unreadable 1) = round_trip (Scenario.then_unreadable 0)
  ∧ fs (main 2 Scenario.healthy Scenario.then_unreadable Scenario.with_token).2 !! saltFile
    = Some "ERITFBUWFxgZGhscHR4fIA=="
  ∧ (main 2 Scenario.healthy Scenario.then_unreadable Scenario.with_token).1 = Exited.
Proof. vm_compute. repeat (split; [reflexivity |]). reflexivity. Qed.



(** * Runs for the further properties *)

(** The witness of X1: the baseline of the scenario, saved and loaded. *)
Lemma store_round_trip_witness :
  (loadFromFile hwidFile Scenario.healthy
     (saveToFile hwidFile Scenario.x86_id Scenario.healthy Scenario.fresh).2).1
  = (Scenario.x86_id, None).
Proof.
  destruct (store_round_trip hwidFile Scenario.x86_id Scenario.healthy Scenario.healthy
              Scenario.fresh eq_refl eq_refl) as (_ & Hid & _).
  apply (Hid Scenario.salt0 (json_Marshal (Some Scenario.x86_data)).1).
  vm_compute. reflexivity.
Defined.

(** The witness of X2: a fresh device is started again after its first
    cycle. *)
Lemma baseline_survives_restart_witness :
  (startup Scenario.healthy
     (iteration "iofog" 60 EmptyString Scenario.healthy Scenario.booted).2).1.2
  = Scenario.x86_id.
Proof.
  apply (baseline_survives_restart "iofog" 60 Scenario.healthy Scenario.healthy
           Scenario.booted
           (collectHardwareData "iofog" Scenario.healthy Scenario.booted).2
           (calculateSaltedHash (Some Scenario.x86_data) Scenario.healthy
              (collectHardwareData "iofog" Scenario.healthy Scenario.booted).2).2
           _ (Some Scenario.x86_data)).
  - vm_compute. reflexivity.
  - vm_compute. reflexivity.
  - reflexivity.
  - reflexivity.
  - reflexivity.
Defined.


(** The witness of X4: no salt record, and the disk is full when the new
    salt is written. *)
Lemma fingerprint_fails_iff_witness :
  (calculateSaltedHash (Some Scenario.x86_data) Scenario.disk_full Scenario.fresh).1.2
  ≠ None
  ∧ (calculateSaltedHash (Some Scenario.x86_data) Scenario.disk_full Scenario.fresh).1.1
    = EmptyString
  ∧ fs Scenario.fresh !! saltFile = None
  ∧ fs (calculateSaltedHash (Some Scenario.x86_data) Scenario.disk_full Scenario.fresh).2
      !! saltFile = Some EmptyString.
Proof.
  destruct (fingerprint_fails_iff (Some Scenario.x86_data) Scenario.disk_full
              Scenario.fresh) as [[_ Hback] Hfail].
  assert (H : (calculateSaltedHash (Some Scenario.x86_data) Scenario.disk_full
                 Scenario.fresh).1.2 ≠ None).
  { apply Hback. split; [right; reflexivity | right; discriminate]. }
  destruct (Hfail H) as (Hempty & _ & _ & _ & Hpartial).
  split; [exact H | split; [exact Hempty | split; [reflexivity |]]].
  rewrite (Hpartial 0%nat eq_refl eq_refl). reflexivity.
Defined.

(** The witness of X5: the control plane answers 200. *)
Lemma deprovision_succeeds_only_on_200_witness :
  (deprovisionDevice "token" Scenario.swapped Scenario.provisioned).1 = None.
Proof.
  destruct (deprovision_succeeds_only_on_200 "token" Scenario.swapped Scenario.provisioned)
    as (_ & _ & [_ Hback]).
  apply Hback. exists {| StatusCode := 200; Body := inl EmptyString |}.
  split; vm_compute; reflexivity.
Defined.

(** The witness of X6: the body served for lsusb does not decode, and lshw
    and proc/cpuinfo are not asked for. *)
Lemma collector_requests_witness :
  visited Scenario.broken_lsusb "iofog" endpoints = ["lscpu"; "lspci"; "lsusb"]
  ∧ ∃ ep, last (visited Scenario.broken_lsusb "iofog" endpoints) = Some ep
          ∧ (fetchResult Scenario.broken_lsusb (endpointURL "iofog" ep)).2
            = Some (wrapError
                      ("failed to parse JSON from http://iofog:54331/hal/hwc/lsusb: "
                       +:+ "invalid character looking for beginning of value")
                      (errorString "invalid character looking for beginning of value")).
Proof.
  split; [vm_compute; reflexivity |].
  destruct (collector_requests "iofog" Scenario.broken_lsusb Scenario.fresh)
    as (_ & _ & _ & _ & Hlast).
  apply Hlast. vm_compute. reflexivity.
Defined.

(** The witness of X7: every answer of the facts service has status 503. *)
Lemma status_code_is_ignored_witness :
  same_bodies Scenario.healthy (Scenario.with_status 503 Scenario.healthy)
  ∧ (collectHardwareData "iofog" (Scenario.with_status 503 Scenario.healthy)
       Scenario.provisioned).1
    = (Some Scenario.x86_data, None).
Proof.
  assert (H : same_bodies Scenario.healthy (Scenario.with_status 503 Scenario.healthy)).
  { intros req. cbn. destruct (Scenario.network Scenario.x86 200 req); reflexivity. }
  split; [exact H |].
  rewrite <- (status_code_is_ignored "iofog" Scenario.healthy _ Scenario.fresh _ H).
  vm_compute. reflexivity.
Defined.

(** The witness of X8: an empty array. *)
Lemma wrapped_value_collides_witness :
  parseToMap (JArray []) = parseToMap (JObject {[ "data" := JArray [] ]})
  ∧ parseToMap (JArray []) !! "data" = Some (JArray []).
Proof.
  destruct (wrapped_value_collides (JArray [])) as (H1 & H2 & _); [discriminate |].
  split; assumption.
Defined.

(** The witness of X9: PERIOD is 5. *)
Lemma startup_configuration_witness :
  environ Scenario.paced !! "PERIOD" = Some "5"
  ∧ (startup Scenario.paced Scenario.fresh).1.1.2 = 5.
Proof.
  assert (H : environ Scenario.paced !! "PERIOD" = Some "5") by reflexivity.
  split; [exact H |].
  destruct (startup_configuration Scenario.paced Scenario.fresh) as (_ & _ & Hset & _).
  destruct (Hset "5" H) as [Hv _]. apply Hv; [vm_compute; reflexivity | lia].
Defined.

(** The witness of X10: a period of one minute. *)
Lemma unchanged_cycle_sleep_witness :
  cycle_outcome "iofog" Scenario.x86_id Scenario.healthy Scenario.provisioned
  = Unchanged Scenario.x86_id
  ∧ ∃ d,
      filter (λ e, is_sleep e = true)
        (events_since Scenario.provisioned
           (iteration "iofog" 60 Scenario.x86_id Scenario.healthy Scenario.provisioned).2)
      = [EvSleep d]
      ∧ (d = 60 * 1000000000 ↔ 60 ≤ 9223372036).
Proof.
  assert (H : cycle_outcome "iofog" Scenario.x86_id Scenario.healthy Scenario.provisioned
              = Unchanged Scenario.x86_id) by (vm_compute; reflexivity).
  split; [exact H |].
  apply (unchanged_cycle_sleep "iofog" 60 Scenario.x86_id Scenario.x86_id
           Scenario.healthy Scenario.provisioned); [| exact H].
  change (2 ^ 63 - 1) with 9223372036854775807. lia.
Defined.

(** The witness of X11: two passes on changed hardware without a token. *)
Lemma baseline_is_never_replaced_witness :
  Scenario.x86_id ≠ EmptyString
  ∧ fs (loop 2 (λ _, Scenario.swapped) 0 "iofog" 60 Scenario.x86_id
          Scenario.provisioned_without_token).2 !! hwidFile
    = Some Scenario.x86_id.
Proof.
  assert (H : Scenario.x86_id ≠ EmptyString) by discriminate.
  split; [exact H |].
  destruct (baseline_is_never_replaced 2 (λ _, Scenario.swapped) 0 "iofog" 60
              Scenario.x86_id Scenario.provisioned_without_token H) as (_ & Hfs & _).
  rewrite Hfs. reflexivity.
Defined.

(** The witness of X12: five passes on the original hardware. *)
Lemma stable_hardware_keeps_running_witness :
  (loop 5 (λ _, Scenario.healthy) 0 "iofog" 60
     (saltedHash (bytes_TrimSpace Scenario.salt0)
        (json_Marshal (Some Scenario.x86_data)).1)
     Scenario.provisioned).1
  = Running (saltedHash (bytes_TrimSpace Scenario.salt0)
               (json_Marshal (Some Scenario.x86_data)).1)
  ∧ saltedHash (bytes_TrimSpace Scenario.salt0) (json_Marshal (Some Scenario.x86_data)).1
    = Scenario.x86_id.
Proof.
  split; [| vm_compute; reflexivity].
  apply (stable_hardware_keeps_running 5 (λ _, Scenario.healthy) 0 "iofog" 60
           Scenario.provisioned (Some Scenario.x86_data) Scenario.salt0).
  - intros j. reflexivity.
  - intros j. vm_compute. reflexivity.
  - vm_compute. reflexivity.
Defined.

(** The witness of X13: the device holds the baseline of the original
    hardware, the read of the record fails at start-up and the hardware was
    changed: the baseline of the changed hardware replaces the record. *)
Lemma unusable_baseline_record_is_replaced_witness :
  fs Scenario.provisioned !! hwidFile = Some Scenario.x86_id
  ∧ read_fault Scenario.unreadable_baseline hwidFile ≠ None
  ∧ fs (iteration "iofog" 60 EmptyString Scenario.swapped
          (startup Scenario.unreadable_baseline Scenario.provisioned).2).2 !! hwidFile
    = Some Scenario.arm_id.
Proof.
  assert (H : read_fault Scenario.unreadable_baseline hwidFile ≠ None) by discriminate.
  split; [vm_compute; reflexivity | split; [exact H |]].
  destruct (unusable_baseline_record_is_replaced Scenario.unreadable_baseline
              Scenario.swapped Scenario.provisioned
              (startup Scenario.unreadable_baseline Scenario.provisioned).2
              (collectHardwareData "iofog" Scenario.swapped
                 (startup Scenario.unreadable_baseline Scenario.provisioned).2).2
              (calculateSaltedHash (Some Scenario.arm_data) Scenario.swapped
                 (collectHardwareData "iofog" Scenario.swapped
                    (startup Scenario.unreadable_baseline Scenario.provisioned).2).2).2
              "iofog" 60 EmptyString (Some Scenario.arm_data) Scenario.arm_id)
    as (_ & _ & Hfs & _).
  - left. exact H.
  - vm_compute. reflexivity.
  - vm_compute. reflexivity.
  - vm_compute. reflexivity.
  - reflexivity.
  - exact Hfs.
Defined.

(** The witness of X15: two passes on changed hardware, the control plane
    refusing the call. *)
Lemma in_memory_identity_is_kept_witness :
  (InMemory.loop 2 (λ _, Scenario.rejected) 0 "iofog" 60 Scenario.x86_id Scenario.salt0
     Scenario.with_token).1
  = (Running Scenario.x86_id, Scenario.salt0).
Proof.
  destruct (in_memory_identity_is_kept 2 (λ _, Scenario.rejected) 0 "iofog" 60
              Scenario.x86_id Scenario.salt0 Scenario.with_token)
    as [Hst Hsalt]; [discriminate | discriminate |].
  destruct Hst as [Hst | Hst].
  - exfalso. revert Hst. vm_compute. discriminate.
  - destruct (InMemory.loop 2 _ 0 "iofog" 60 Scenario.x86_id Scenario.salt0
                Scenario.with_token) as [[st s] w].
    cbn in Hst, Hsalt. now subst.
Defined.

(** The witness of X17: one fingerprint. *)
Lemma hardware_id_identifies_digest_witness :
  saltedHash Scenario.salt0 "{}" = saltedHash Scenario.salt0 "{}".
Proof.
  apply (hardware_id_identifies_digest Scenario.salt0 "{}" Scenario.salt0 "{}").
  reflexivity.
Defined.

(** The witness of X18: the salt of the scenario. *)
Lemma generateSalt_shape_witness :
  ∃ salt, (generateSalt Scenario.healthy Scenario.fresh).1 = (salt, None)
          ∧ String.length salt = 24%nat
          ∧ plain salt
          ∧ bytes_TrimSpace salt = salt.
Proof.
  destruct (generateSalt_shape Scenario.healthy Scenario.fresh) as (_ & _ & Hok & _).
  apply Hok. reflexivity.
Defined.

(** The witness of X19: the provisioned device is started on changed
    hardware. *)
Lemma changed_hardware_at_start_deprovisions_witness :
  (main 1 Scenario.healthy (λ _, Scenario.swapped) Scenario.provisioned).1 = Exited
  ∧ filter (λ e, is_deprovision e = true)
      (events_since Scenario.provisioned
         (main 1 Scenario.healthy (λ _, Scenario.swapped) Scenario.provisioned).2)
    = [EvHttp (deprovisionRequest "token")]
  ∧ (startup Scenario.healthy
       (main 1 Scenario.healthy (λ _, Scenario.swapped) Scenario.provisioned).2).1.2
    = Scenario.x86_id.
Proof.
  destruct (changed_hardware_at_start_deprovisions 0 Scenario.healthy
              (λ _, Scenario.swapped) Scenario.provisioned
              (startup Scenario.healthy Scenario.provisioned).2
              (collectHardwareData "iofog" Scenario.swapped
                 (startup Scenario.healthy Scenario.provisioned).2).2
              (calculateSaltedHash (Some Scenario.arm_data) Scenario.swapped
                 (collectHardwareData "iofog" Scenario.swapped
                    (startup Scenario.healthy Scenario.provisioned).2).2).2
              "iofog" 60 Scenario.x86_id (Some Scenario.arm_data) Scenario.arm_id "token"
              {| StatusCode := 200; Body := inl EmptyString |})
    as (Hexit & Hcall & _ & _ & Hnext).
  - vm_compute. reflexivity.
  - discriminate.
  - vm_compute. reflexivity.
  - vm_compute. reflexivity.
  - discriminate.
  - vm_compute. reflexivity.
  - vm_compute. reflexivity.
  - reflexivity.
  - split; [exact Hexit | split; [exact Hcall | apply Hnext; reflexivity]].
Defined.

(** The witness of X20: a salt record that holds one blank. *)
Lemma blank_salt_record_is_not_replaced_witness :
  (calculateSaltedHash (Some Scenario.x86_data) Scenario.healthy Scenario.blank_salt).1
  = (Hex.encode (Sha256.Sum256 (json_Marshal (Some Scenario.x86_data)).1), None)
  ∧ fs (calculateSaltedHash (Some Scenario.x86_data) Scenario.healthy
          Scenario.blank_salt).2 !! saltFile
    = Some " ".
Proof.
  destruct (blank_salt_record_is_not_replaced (Some Scenario.x86_data) Scenario.healthy
              Scenario.blank_salt Scenario.fresh " ")
    as (Hhash & _ & Hfs & _).
  - reflexivity.
  - reflexivity.
  - vm_compute. reflexivity.
  - split; [exact Hhash | rewrite Hfs; reflexivity].
Defined.
